(** * MathWorksheetGenerator: the worksheet generator of [wsgenerator.py]

    A shallow embedding of the problem-generation and formatting functions
    of [wsgenerator.py] and the properties of them that the design document
    states.

    Conventions of the embedding:
    - Python [int] is [Z]; [//] and [%] are [Z.div] and [Z.modulo] (both
      round towards minus infinity, like Python's).
    - Python [str] is [string]; a backslash is an ordinary character of a
      Rocq string, so Python's ['\\times'] is written ["\times"].
    - [list(set(...))] is [elements] of a [gset]: a duplicate-free list in
      an order the program does not control.
    - An exception aborts the computation: functions that can raise return
      a [result].
    - Python [float] is IEEE 754 double precision; the interpreter is
      CPython 3.11 with its default settings, among them the limit of 4300
      digits on the conversion of an [int] to [str].
    - The functions that call the [random] module read their draws from an
      explicit random source and return the advanced source. *)

From Stdlib Require Import ZArith Lia List Ascii String.
From Stdlib Require Import DecimalString DecimalZ DecimalPos DecimalFacts.
From stdpp Require Import base list gmap sets strings.

Open Scope bool_scope.
Open Scope Z_scope.

(** ** Exceptions *)

(** The places where the program can raise, named after the operation that
    fails. *)
Inductive error : Type :=
  | EmptyReduce   (* reduce() of an empty iterable with no initial value *)
  | ComplexRoot   (* int() of the complex value of n ** 0.5 for n < 0 *)
  | EmptyChoice   (* random.choice of an empty sequence *)
  | BadRange      (* random.randint with an empty or non-integer range *)
  | FloatOverflow (* OverflowError: int too large to convert to float *)
  | DigitLimit.   (* ValueError: str() of an int beyond the digit limit *)

Inductive result (A : Type) : Type :=
  | Ok (a : A)
  | Raise (e : error).

Arguments Ok {A} a.
Arguments Raise {A} e.

Definition result_bind {A B : Type} (r : result A) (k : A -> result B) : result B :=
  match r with
  | Ok a => k a
  | Raise e => Raise e
  end.

(** ** The random source *)

(** The state of the pseudorandom generator: an infinite tape of raw draws
    and the position of the next one. *)
Record RandomSource : Type := mkSource {
  tape : nat -> nat;
  pos : nat
}.

Definition next_raw (rs : RandomSource) : nat := tape rs (pos rs).

Definition advance (rs : RandomSource) : RandomSource :=
  {| tape := tape rs; pos := S (pos rs) |}.

(** A source that replays a finite list of raw draws and then zeros. *)
Definition source_of (draws : list nat) : RandomSource :=
  {| tape := fun i => nth i draws 0%nat; pos := 0%nat |}.

(** Computations that draw random numbers and may raise. *)
Definition Gen (A : Type) : Type := RandomSource -> result (A * RandomSource).

Definition ret {A : Type} (a : A) : Gen A := fun rs => Ok (a, rs).

Definition raise {A : Type} (e : error) : Gen A := fun _ => Raise e.

Definition bind {A B : Type} (m : Gen A) (k : A -> Gen B) : Gen B :=
  fun rs =>
    match m rs with
    | Ok (a, rs') => k a rs'
    | Raise e => Raise e
    end.

Definition lift {A : Type} (r : result A) : Gen A :=
  fun rs =>
    match r with
    | Ok a => Ok (a, rs)
    | Raise e => Raise e
    end.

Declare Scope gen_scope.
Delimit Scope gen_scope with gen.

Notation "'let*' p ':=' m 'in' k" := (bind m (fun p => k))
  (at level 10, p pattern, m at level 100, k at level 200) : gen_scope.

(** [random.randint(a, b)]: an integer of [a .. b].  The raw draw is
    reduced into the range, so every tape is a run of the program and every
    value of the range is the outcome on some tape. *)
Definition randint (a b : Z) : Gen Z :=
  fun rs =>
    if b <? a then Raise BadRange
    else Ok (a + Z.of_nat (next_raw rs) mod (b - a + 1), advance rs).

(** [random.choice(seq)]: an element of [seq] at a random index; raises on
    an empty sequence. *)
Definition choice {A : Type} (seq : list A) : Gen A :=
  fun rs =>
    match seq !! (next_raw rs mod length seq)%nat with
    | Some x => Ok (x, advance rs)
    | None => Raise EmptyChoice
    end.

(** ** Python built-ins used by the program *)

(** [range(a, b)] *)
Definition range (a b : Z) : list Z := seqZ a (b - a).

(** [functools.reduce(f, iterable)] with no initial value. *)
Definition reduce {A : Type} (f : A -> A -> A) (l : list A) : result A :=
  match l with
  | [] => Raise EmptyReduce
  | x :: t => Ok (fold_left f t x)
  end.

(** [len(s)] *)
Definition len (s : string) : Z := Z.of_nat (String.length s).

(** The decimal numeral of an integer, with a leading minus sign for a
    negative number. *)
Definition numeral (num : Z) : string := NilZero.string_of_int (Z.to_int num).

(** [sys.get_int_max_str_digits()], at its default. *)
Definition int_max_str_digits : Z := 4300.

(** [str(num)] for an [int]: the decimal numeral.  The interpreter refuses
    the conversion (ValueError) when the numeral, without its sign, has
    more than [int_max_str_digits] digits. *)
Definition str (num : Z) : result string :=
  if int_max_str_digits <? len (numeral (Z.abs num))
  then Raise DigitLimit
  else Ok (numeral num).

(** Iterating over a string yields its characters as one-character
    strings. *)
Definition chars (s : string) : list string :=
  map (fun c => String c EmptyString) (list_ascii_of_string s).

(** [sep.join(parts)] *)
Fixpoint join (sep : string) (parts : list string) : string :=
  match parts with
  | [] => EmptyString
  | [p] => p
  | p :: rest => p +:+ sep +:+ join sep rest
  end.

(** [s[:-k]]: [s] without its last [k] characters (empty when [s] is
    shorter). *)
Definition drop_last (k : nat) (s : string) : string :=
  String.substring 0 (String.length s - k) s.

(** The newline character. *)
Definition nl : string := String (ascii_of_nat 10) EmptyString.

(** ** [find_factors] *)

(** [float(m)] for an [int] [m >= 0], as the integer the double denotes:
    [m] rounded to 53 significant bits, to nearest and to even on a tie. *)
Definition round_to_53 (m : Z) : Z :=
  if m <? 2 ^ 53 then m
  else
    let sh := Z.log2 m - 52 in
    let q := m / 2 ^ sh in
    let rem := m mod 2 ^ sh in
    let half := 2 ^ (sh - 1) in
    let q' := if (half <? rem) || ((rem =? half) && Z.odd q) then q + 1 else q in
    q' * 2 ^ sh.

(** The conversion of an [int] operand to [float]: OverflowError when the
    rounded magnitude is not a finite double. *)
Definition float_of_int (m : Z) : result Z :=
  let x := round_to_53 m in
  if 2 ^ 1024 <=? x then Raise FloatOverflow else Ok x.

(** [int(x ** 0.5)] for a double [x >= 0] with an integer value.  The
    power is taken as the correctly rounded square root: the root rounded
    to the nearest double (to 53 significant bits, to even on a tie); the
    result is then truncated.  With [t] such that
    [2^(t-1) <= sqrt x < 2^t], the doubles next to the root are the
    multiples of [2^(t-53)].  For [x < 2^52] the truncation is the integer
    square root whichever of the two doubles next to the root the C
    library's [pow] returns; for larger [x] it can depend on that choice. *)
Definition float_sqrt_floor (x : Z) : Z :=
  if x =? 0 then 0
  else
    let t := Z.log2 x / 2 + 1 in
    if t <=? 53 then
      let j := 53 - t in
      let X := x * 4 ^ j in
      let m := Z.sqrt X in
      let R := if X - m * m <=? m then m else m + 1 in
      R / 2 ^ j
    else
      let k := t - 53 in
      let m := Z.sqrt (x / 4 ^ k) in
      let c := 4 ^ k * (m * m + m) + 4 ^ (k - 1) in
      let R := if x <? c then m
               else if c <? x then m + 1
               else if Z.even m then m else m + 1 in
      R * 2 ^ k.

(** [int(n ** 0.5)].  The [int] [n] is converted to a double, which
    raises when [n] is too large; for [n < 0] the power is a complex
    number and [int] raises; otherwise the double square root is
    truncated.  The result is the integer square root for [n] below
    [2^52] ([int_sqrt_exact]); for larger [n] it can be above or below
    it, and the properties of [find_factors] that reach such [n] are
    proved for every limit ([Section Factors]). *)
Definition int_sqrt (n : Z) : result Z :=
  result_bind (float_of_int (Z.abs n)) (fun x =>
  if n <? 0 then Raise ComplexRoot else Ok (float_sqrt_floor x)).

(** The generator expression of [find_factors], with the upper limit
    [int(n ** 0.5)] given as [r]. *)
Definition factor_pairs (r n : Z) : list (list Z) :=
  map (fun i => [i; n `div` i])
      (filter (fun i => n `mod` i = 0) (range 1 (r + 1))).

Definition find_factors (n : Z) : result (list Z) :=
  result_bind (int_sqrt n) (fun r =>
  result_bind (reduce (@app Z) (factor_pairs r n)) (fun l =>
  Ok (elements (list_to_set (C := gset Z) l)))).

(** ** [num_to_latex] *)

Definition num_to_latex (num_digits : Z) (num : Z) : result string :=
  result_bind (str num) (fun num_string =>
  let padding :=
    join "" (map (fun _ => "x"%string) (range 0 (num_digits - len num_string))) in
  let num_string := padding +:+ num_string in
  Ok (join "\,"
        (map (fun digit => if String.eqb digit "x" then "\phantom{0}"%string else digit)
             (chars num_string)))).

(** ** [operation_to_latex] *)

(** [x in {...}] for a set display of string literals. *)
Definition in_set (x : string) (s : list string) : bool :=
  existsb (String.eqb x) s.

Definition operation_to_latex (operation : string) : string :=
  if in_set operation ["add"; "addition"; "plus"] then "+"
  else if in_set operation ["sub"; "subtract"; "subtraction"; "minus"] then "-"
  else if in_set operation ["multiply"; "multiplication"; "times"; "x"] then "\times"
  else if in_set operation ["div"; "divide"; "division"; "\"] then "\div"
  else operation.

(** ** [create_problem_latex] *)

Definition create_problem_latex (num_digits : Z) (operation : string) (num1 num2 : Z)
  : result string :=
  result_bind (num_to_latex num_digits num1) (fun num1_latex =>
  result_bind (num_to_latex num_digits num2) (fun num2_latex =>
  let operation := operation_to_latex operation in
  Ok ("\begin{myequation}" +:+ nl +:+
      "    \begin{array}{r}" +:+ nl +:+
      "        " +:+ num1_latex +:+ " \\" +:+ nl +:+
      "        " +:+ operation +:+ "\phantom{0}" +:+ num2_latex +:+ " \\" +:+ nl +:+
      "        \hline\\" +:+ nl +:+
      "        \hline" +:+ nl +:+
      "    \end{array}" +:+ nl +:+
      "\end{myequation}"))).

(** ** [create_random_problem_latex] *)

(** [10**num_digits - 1].  For a negative [num_digits] the power is a
    float, which [random.randint] refuses as a bound. *)
Definition max_num_of (num_digits : Z) : option Z :=
  if num_digits <? 0 then None else Some (10 ^ num_digits - 1).

(** [random.randint(0, max_num)] *)
Definition randint_to (max_num : option Z) : Gen Z :=
  match max_num with
  | Some m => randint 0 m
  | None => raise BadRange
  end.

(** The guard of the first conditional of [create_random_problem_latex]:
    [operation == '-' and operation == '\\times']. *)
Definition times_table_guard (operation : string) : bool :=
  String.eqb operation "-" && String.eqb operation "\times".

(** The body of [create_random_problem_latex] up to its [return]: the
    resolved operation and the two operands that are handed to
    [create_problem_latex]. *)
Definition random_problem (num_digits : Z) (included_operations : list string)
    (limit_multiplication : bool) : Gen (string * Z * Z) :=
  (let* picked := choice included_operations in
   let operation := operation_to_latex picked in
   let max_num := max_num_of num_digits in
   let* num1 := randint_to max_num in
   let* num2 := randint_to max_num in
   let* (num1, num2) :=
     if times_table_guard operation
     then (let* a := randint 0 12 in let* b := randint 0 12 in ret (a, b))
     else ret (num1, num2) in
   let '(num1, num2) :=
     if String.eqb operation "-"
     then (if num1 <? num2 then (num2, num1) else (num1, num2))
     else (num1, num2) in
   let* (num1, num2) :=
     if String.eqb operation "\div"
     then (let* quotient := randint_to max_num in
           let* factors := lift (find_factors quotient) in
           let* divisor := choice factors in
           ret (quotient, divisor))
     else ret (num1, num2) in
   ret (operation, num1, num2))%gen.

Definition create_random_problem_latex (num_digits : Z)
    (included_operations : list string) (limit_multiplication : bool) : Gen string :=
  (let* (operation, num1, num2) :=
     random_problem num_digits included_operations limit_multiplication in
   lift (create_problem_latex num_digits operation num1 num2))%gen.

(** ** [create_worksheet_latex] *)

(** [for _ in range(n): s = body(s)] *)
Fixpoint for_range {S : Type} (n : nat) (body : S -> Gen S) (s : S) : Gen S :=
  match n with
  | O => ret s
  | S k => (let* s' := body s in for_range k body s')%gen
  end.

Definition create_worksheet_latex (num_digits : Z)
    (included_operations : list string) (limit_multiplication : bool) : Gen string :=
  let problems_per_row := 4%nat in
  let num_rows := 5%nat in
  (let* (worksheet_latex, count) :=
     for_range num_rows (fun '(worksheet_latex, count) =>
       let* (worksheet_latex, count) :=
         for_range problems_per_row (fun '(worksheet_latex, count) =>
           let count := count + 1 in
           let* problem_latex :=
             create_random_problem_latex num_digits included_operations
               limit_multiplication in
           ret (worksheet_latex +:+ problem_latex +:+ "&" +:+ nl, count))
         (worksheet_latex, count) in
       let worksheet_latex := drop_last 2 worksheet_latex in
       ret (worksheet_latex +:+ "\\ " +:+ nl, count))
     (EmptyString, 0) in
   ret worksheet_latex)%gen.

(** ** Vocabulary of the properties *)

(** The value that [random.randint(0, m)] returns when it reads the [k]-th
    cell after the current position of the source. *)
Definition drawn (rs : RandomSource) (k : nat) (m : Z) : Z :=
  Z.of_nat (tape rs (k + pos rs)%nat) mod (m + 1).

(** The source after [k] draws. *)
Definition advanced (k : nat) (rs : RandomSource) : RandomSource :=
  {| tape := tape rs; pos := (k + pos rs)%nat |}.

(** [n] successive runs of [g], in order. *)
Fixpoint gen_list {A : Type} (n : nat) (g : Gen A) : Gen (list A) :=
  match n with
  | O => ret []
  | S k => (let* x := g in let* xs := gen_list k g in ret (x :: xs))%gen
  end.

Definition concat_strings (l : list string) : string :=
  fold_right String.append EmptyString l.

(** One row of the grid as the design document describes it: the blocks
    joined by the column separator, then the row break. *)
Definition row_latex (row : list string) : string :=
  join ("&" +:+ nl) row +:+ "\\ " +:+ nl.

Definition worksheet_of_rows (rows : list (list string)) : string :=
  concat_strings (map row_latex rows).

(** The blank-padding marker. *)
Definition phantom : string := "\phantom{0}".

Definition is_digit (c : ascii) : bool :=
  (48 <=? nat_of_ascii c)%nat && (nat_of_ascii c <=? 57)%nat.

(** A one-character string holding a decimal digit. *)
Definition digit_string (s : string) : Prop :=
  exists c, s = String c EmptyString /\ is_digit c = true.

(** Every alias of the table of [operation_to_latex]. *)
Definition aliases : list string :=
  ["add"; "addition"; "plus"; "sub"; "subtract"; "subtraction"; "minus";
   "multiply"; "multiplication"; "times"; "x"; "div"; "divide"; "division"; "\"].

(** The canonical operation symbols. *)
Definition canonical : list string := ["+"; "-"; "\times"; "\div"].

(** The decimal digits that occur in a string, in order. *)
Definition keep_digits (s : string) : list ascii :=
  List.filter is_digit (list_ascii_of_string s).

(** The number that a sequence of decimal digits denotes. *)
Definition digits_value (l : list ascii) : Z :=
  fold_left (fun acc c => 10 * acc + (Z.of_nat (nat_of_ascii c) - 48)) l 0.

(** The number of occurrences of a character in a string. *)
Fixpoint count_char (c : ascii) (s : string) : nat :=
  match s with
  | EmptyString => 0
  | String a s' => (if Ascii.eqb a c then 1 else 0) + count_char c s'
  end.

(** The characters that [num_to_latex] writes: the digits, the minus sign
    and the characters of the two markers. *)
Definition operand_alphabet : list ascii :=
  list_ascii_of_string "0123456789-\phantom{},".

Definition in_alphabet (c : ascii) : bool :=
  existsb (Ascii.eqb c) operand_alphabet.

(** ** [create_worksheet_pdf]: the template text *)

(** [s.replace(old, new)] for a one-character [old]. *)
Fixpoint replace_char (old : ascii) (new : string) (s : string) : string :=
  match s with
  | EmptyString => EmptyString
  | String a s' =>
      (if Ascii.eqb a old then new else String a EmptyString)
      +:+ replace_char old new s'
  end.

(** The text that [create_worksheet_pdf] hands to [Template], from the
    text of the template file:
    [file.read().replace('$', '$$').replace('#', '$')]. *)
Definition template_source (text : string) : string :=
  replace_char "#" "$" (replace_char "$" "$$" text).

(** * Properties *)

(** ** Lists and strings *)

Lemma fold_left_app_concat {A : Type} (t : list (list A)) (x : list A) :
  fold_left (@app A) t x = x ++ concat t.
Proof.
  revert x. induction t as [|y t IH]; intros x; simpl.
  - by rewrite app_nil_r.
  - rewrite IH. by rewrite <- app_assoc.
Qed.

Lemma reduce_app_concat {A : Type} (ls : list (list A)) :
  ls <> [] -> reduce (@app A) ls = Ok (concat ls).
Proof.
  destruct ls as [|x t]; [done|]. intros _. simpl.
  by rewrite fold_left_app_concat.
Qed.

Lemma elem_of_concat {A : Type} (x : A) (ls : list (list A)) :
  x ∈ concat ls <-> exists l, x ∈ l /\ l ∈ ls.
Proof.
  induction ls as [|l ls IH]; simpl.
  - split; [intros H; inversion H | intros (l & _ & H); inversion H].
  - rewrite elem_of_app, IH. split.
    + intros [H | (l' & H1 & H2)]; [exists l | exists l'];
        (split; [done|]); [apply list_elem_of_here | by apply list_elem_of_further].
    + intros (l' & H1 & H2). apply elem_of_cons in H2 as [-> | H2]; [by left|].
      right. by exists l'.
Qed.

Lemma elem_of_range (a b k : Z) : k ∈ range a b <-> a <= k < b.
Proof. unfold range. rewrite elem_of_seqZ. lia. Qed.

Lemma length_range (a b : Z) : length (range a b) = Z.to_nat (b - a).
Proof. unfold range. apply length_seqZ. Qed.

Lemma string_app_cons (c : ascii) (s t : string) :
  String c s +:+ t = String c (s +:+ t).
Proof. reflexivity. Qed.

Lemma string_app_assoc (s t u : string) : (s +:+ t) +:+ u = s +:+ (t +:+ u).
Proof.
  induction s as [|c s IH]; [done|]. by rewrite !string_app_cons, IH.
Qed.

Lemma string_app_nil_r (s : string) : s +:+ "" = s.
Proof. induction s as [|c s IH]; [done|]. by rewrite string_app_cons, IH. Qed.

Lemma string_length_app (s t : string) :
  String.length (s +:+ t) = (String.length s + String.length t)%nat.
Proof.
  induction s as [|c s IH]; [done|]. rewrite string_app_cons. simpl. by rewrite IH.
Qed.

Lemma substring_prefix (s t : string) :
  String.substring 0 (String.length s) (s +:+ t) = s.
Proof.
  induction s as [|c s IH]; [by destruct t|].
  rewrite string_app_cons. simpl. by rewrite IH.
Qed.

Lemma drop_last_app (s t : string) : drop_last (String.length t) (s +:+ t) = s.
Proof.
  unfold drop_last. rewrite string_length_app.
  replace (String.length s + String.length t - String.length t)%nat
    with (String.length s) by lia.
  apply substring_prefix.
Qed.

Lemma chars_app (s t : string) : chars (s +:+ t) = chars s ++ chars t.
Proof.
  unfold chars. induction s as [|c s IH]; [done|].
  rewrite string_app_cons. simpl. by rewrite IH.
Qed.

Lemma length_chars (s : string) : length (chars s) = String.length s.
Proof.
  unfold chars. induction s as [|c s IH]; simpl; [done|]. by rewrite IH.
Qed.

(** ** [numeral]: the decimal numeral *)

Lemma str_roundtrip (num : Z) :
  option_map Z.of_int (NilZero.int_of_string (numeral num)) = Some num.
Proof.
  unfold numeral. rewrite NilZero.isi.
  - simpl. by rewrite DecimalZ.of_to.
  - destruct num as [|p|p]; simpl; try done.
    intros H. injection H as H. by apply DecimalPos.Unsigned.to_uint_nonnil in H.
  - destruct num as [|p|p]; simpl; try done.
    intros H. injection H as H. by apply DecimalPos.Unsigned.to_uint_nonnil in H.
Qed.

Lemma uint_digits (d : Decimal.uint) :
  Forall digit_string (chars (NilEmpty.string_of_uint d)).
Proof.
  induction d; simpl; constructor; try done; eexists; (split; [reflexivity | done]).
Qed.

Lemma str_digits (num : Z) : 0 <= num -> Forall digit_string (chars (numeral num)).
Proof.
  intros Hn. unfold numeral. destruct num as [|p|p]; [| |lia].
  - repeat constructor. eexists; (split; [reflexivity | done]).
  - simpl. unfold NilZero.string_of_uint.
    destruct (Pos.to_uint p) eqn:E; try (rewrite <- E; apply uint_digits).
    repeat constructor. eexists; (split; [reflexivity | done]).
Qed.

Lemma uint_no_x (d : Decimal.uint) :
  Forall (fun s => String.eqb s "x" = false) (chars (NilEmpty.string_of_uint d)).
Proof. induction d; simpl; constructor; done. Qed.

Lemma str_no_x (num : Z) :
  Forall (fun s => String.eqb s "x" = false) (chars (numeral num)).
Proof.
  assert (H : forall d, Forall (fun s => String.eqb s "x" = false)
                          (chars (NilZero.string_of_uint d))).
  { intros d. unfold NilZero.string_of_uint.
    destruct d eqn:E; try (rewrite <- E; apply uint_no_x). repeat constructor. }
  unfold numeral. destruct num as [|p|p]; simpl.
  - repeat constructor.
  - apply H.
  - constructor; [done | apply H].
Qed.

(** ** The length of a decimal numeral *)

Lemma of_uint_acc_bounds (d : Decimal.uint) (acc : positive) :
  Z.pos acc * 10 ^ Z.of_nat (Decimal.nb_digits d)
  <= Z.pos (Pos.of_uint_acc d acc)
  < (Z.pos acc + 1) * 10 ^ Z.of_nat (Decimal.nb_digits d).
Proof.
  revert acc. induction d; intros acc;
    cbn [Decimal.nb_digits Pos.of_uint_acc];
    try (rewrite Nat2Z.inj_succ, Z.pow_succ_r by lia;
         match goal with
         | |- context [Pos.of_uint_acc d ?a] => specialize (IHd a)
         end;
         pose proof (Z.pow_pos_nonneg 10 (Z.of_nat (Decimal.nb_digits d))
                       ltac:(lia) ltac:(lia));
         nia).
  simpl. lia.
Qed.

Lemma string_of_uint_length (d : Decimal.uint) :
  String.length (NilEmpty.string_of_uint d) = Decimal.nb_digits d.
Proof. induction d; simpl; congruence. Qed.

(** The numeral of a positive number has no leading zero, so it has as
    many digits as the number needs. *)
Lemma pos_digits_bounds (p : positive) :
  1 <= Z.of_nat (Decimal.nb_digits (Pos.to_uint p)) /\
  10 ^ (Z.of_nat (Decimal.nb_digits (Pos.to_uint p)) - 1) <= Z.pos p
  < 10 ^ Z.of_nat (Decimal.nb_digits (Pos.to_uint p)).
Proof.
  pose proof (DecimalPos.Unsigned.of_to p) as Hval.
  pose proof (DecimalPos.Unsigned.to_uint_nonnil p) as Hnil.
  pose proof (DecimalPos.Unsigned.to_of (Pos.to_uint p)) as Hnorm.
  rewrite Hval in Hnorm. simpl in Hnorm.
  destruct (Pos.to_uint p) as [|d|d|d|d|d|d|d|d|d|d] eqn:E; [done| |..].
  2-10: simpl in Hval; injection Hval as Hval; rewrite <- Hval;
    cbn [Decimal.nb_digits]; rewrite Nat2Z.inj_succ;
    match goal with
    | |- context [Pos.of_uint_acc ?u ?a] =>
        pose proof (of_uint_acc_bounds u a) as Hb;
        replace (Z.succ (Z.of_nat (Decimal.nb_digits u)) - 1)
          with (Z.of_nat (Decimal.nb_digits u)) by lia;
        rewrite Z.pow_succ_r by lia;
        pose proof (Z.pow_pos_nonneg 10 (Z.of_nat (Decimal.nb_digits u))
                      ltac:(lia) ltac:(lia))
    end;
    split; [lia | nia].
  (* a leading zero would make the numeral longer than its normal form *)
  exfalso.
  assert (Hlen : (Decimal.nb_digits (Decimal.unorm (Decimal.D0 d))
                  <= Decimal.nb_digits d)%nat).
  { destruct d as [|d'|d'|d'|d'|d'|d'|d'|d'|d'|d'] eqn:Ed.
    - simpl in Hval. done.
    - change (Decimal.unorm (Decimal.D0 (Decimal.D0 d')))
        with (Decimal.unorm (Decimal.D0 d')).
      apply nb_digits_unorm. done.
    - simpl; lia.
    - simpl; lia.
    - simpl; lia.
    - simpl; lia.
    - simpl; lia.
    - simpl; lia.
    - simpl; lia.
    - simpl; lia.
    - simpl; lia. }
  rewrite <- Hnorm in Hlen. simpl in Hlen. lia.
Qed.

Lemma len_str_pos (p : positive) :
  len (numeral (Z.pos p)) = Z.of_nat (Decimal.nb_digits (Pos.to_uint p)).
Proof.
  unfold len, numeral. simpl. unfold NilZero.string_of_uint.
  pose proof (DecimalPos.Unsigned.to_uint_nonnil p) as Hnil.
  destruct (Pos.to_uint p) eqn:E; [done|..];
    rewrite <- E at 1; by rewrite string_of_uint_length, E.
Qed.

(** [len(str(x))] is the number of decimal digits that [x] needs. *)
Lemma str_length_bounds (x : Z) :
  1 <= x -> 10 ^ (len (numeral x) - 1) <= x < 10 ^ len (numeral x).
Proof.
  intros Hx. destruct x as [|p|p]; [lia| |lia].
  rewrite len_str_pos. apply pos_digits_bounds.
Qed.

Lemma len_str_ge_1 (x : Z) : 0 <= x -> 1 <= len (numeral x).
Proof.
  intros Hx. destruct x as [|p|p]; [done| |lia].
  rewrite len_str_pos. apply pos_digits_bounds.
Qed.

Lemma len_str_le (w x : Z) :
  1 <= w -> 0 <= x -> (len (numeral x) <= w <-> x < 10 ^ w).
Proof.
  intros Hw Hx. destruct (Z.eq_dec x 0) as [-> | Hnz].
  - change (len (numeral 0)) with 1. split; [|lia]. intros _.
    apply Z.pow_pos_nonneg; lia.
  - pose proof (str_length_bounds x ltac:(lia)) as [Hlo Hhi].
    pose proof (len_str_ge_1 x Hx) as Hl. split.
    + intros Hle. eapply Z.lt_le_trans; [exact Hhi|].
      apply Z.pow_le_mono_r; lia.
    + intros Hlt. assert (10 ^ (len (numeral x) - 1) < 10 ^ w) by lia.
      apply Z.pow_lt_mono_r_iff in H; lia.
Qed.

(** ** [str]: the digit limit *)

Lemma str_ok (num : Z) :
  0 <= num -> num < 10 ^ int_max_str_digits -> str num = Ok (numeral num).
Proof.
  intros Hn Hlt. unfold str. rewrite Z.abs_eq by done.
  destruct (int_max_str_digits <? len (numeral num)) eqn:E; [|done].
  apply Z.ltb_lt in E. apply len_str_le in Hlt; [lia | done | done].
Qed.

Lemma str_raise (num : Z) :
  10 ^ int_max_str_digits <= num -> str num = Raise DigitLimit.
Proof.
  intros Hge.
  assert (Hn : 0 <= num).
  { pose proof (Z.pow_pos_nonneg 10 int_max_str_digits ltac:(lia) ltac:(done)). lia. }
  unfold str. rewrite Z.abs_eq by done.
  destruct (int_max_str_digits <? len (numeral num)) eqn:E; [done|].
  apply Z.ltb_ge in E. apply len_str_le in E; [lia | done | done].
Qed.

Lemma str_inv (num : Z) (s : string) :
  str num = Ok s -> s = numeral num /\ len (numeral (Z.abs num)) <= int_max_str_digits.
Proof.
  unfold str. destruct (int_max_str_digits <? len (numeral (Z.abs num))) eqn:E; [done|].
  apply Z.ltb_ge in E. intros H. injection H as <-. done.
Qed.

(** ** [int(n ** 0.5)]: the double square root *)

Lemma pow4 (j : Z) : 0 <= j -> 4 ^ j = 2 ^ j * 2 ^ j.
Proof.
  intros Hj. change 4 with (2 * 2). rewrite Z.pow_mul_l. reflexivity.
Qed.

Lemma round_to_53_small (m : Z) : m < 2 ^ 53 -> round_to_53 m = m.
Proof.
  intros H. unfold round_to_53. destruct (m <? 2 ^ 53) eqn:E; [reflexivity|].
  apply Z.ltb_ge in E. lia.
Qed.

(** The double next to [m] lies in the binade of [m]. *)
Lemma round_to_53_bounds (m : Z) :
  1 <= m -> 2 ^ Z.log2 m <= round_to_53 m <= 2 ^ (Z.log2 m + 1).
Proof.
  intros Hm. pose proof (Z.log2_spec m ltac:(lia)) as [Hlo Hhi].
  unfold Z.succ in Hhi. unfold round_to_53.
  destruct (m <? 2 ^ 53) eqn:E; [lia|]. apply Z.ltb_ge in E.
  assert (HL : 53 <= Z.log2 m) by (apply Z.log2_le_pow2; lia).
  cbv zeta. set (sh := Z.log2 m - 52).
  assert (HS : 0 < 2 ^ sh) by (apply Z.pow_pos_nonneg; lia).
  assert (E1 : 2 ^ Z.log2 m = 2 ^ 52 * 2 ^ sh).
  { rewrite <- Z.pow_add_r by lia. f_equal. lia. }
  assert (E2 : 2 ^ (Z.log2 m + 1) = 2 ^ 53 * 2 ^ sh).
  { rewrite <- Z.pow_add_r by lia. f_equal. lia. }
  assert (Hq1 : 2 ^ 52 <= m / 2 ^ sh) by (apply Z.div_le_lower_bound; lia).
  assert (Hq2 : m / 2 ^ sh < 2 ^ 53) by (apply Z.div_lt_upper_bound; lia).
  rewrite E1, E2.
  destruct (_ || _); split; apply Z.mul_le_mono_nonneg_r; lia.
Qed.

Lemma float_of_int_ok (m : Z) :
  1 <= m < 2 ^ 1023 -> exists x, float_of_int m = Ok x /\ 1 <= x.
Proof.
  intros [Hm Hlt]. pose proof (round_to_53_bounds m Hm) as [Hlo Hhi].
  assert (HL : Z.log2 m < 1023) by (apply Z.log2_lt_pow2; lia).
  assert (H1 : 1 <= 2 ^ Z.log2 m).
  { pose proof (Z.pow_pos_nonneg 2 (Z.log2 m) ltac:(lia) (Z.log2_nonneg m)). lia. }
  assert (H2 : 2 ^ (Z.log2 m + 1) <= 2 ^ 1023) by (apply Z.pow_le_mono_r; lia).
  assert (H3 : 2 ^ 1023 < 2 ^ 1024) by (apply Z.pow_lt_mono_r; lia).
  exists (round_to_53 m). split; [|lia].
  unfold float_of_int. cbv zeta.
  destruct (2 ^ 1024 <=? round_to_53 m) eqn:E; [|done].
  apply Z.leb_le in E. lia.
Qed.

Lemma float_of_int_overflow (m : Z) :
  2 ^ 1024 <= m -> float_of_int m = Raise FloatOverflow.
Proof.
  intros Hm.
  assert (H0 : 0 < 2 ^ 1024) by (apply Z.pow_pos_nonneg; lia).
  pose proof (round_to_53_bounds m ltac:(lia)) as [Hlo _].
  assert (HL : 1024 <= Z.log2 m) by (apply Z.log2_le_pow2; lia).
  assert (H2 : 2 ^ 1024 <= 2 ^ Z.log2 m) by (apply Z.pow_le_mono_r; lia).
  unfold float_of_int. cbv zeta.
  destruct (2 ^ 1024 <=? round_to_53 m) eqn:E; [done|].
  apply Z.leb_gt in E. lia.
Qed.

(** Rounding the scaled root to the nearest integer and truncating gives
    the integer square root when the scale exceeds the root. *)
Lemma nearest_root_floor (n P : Z) :
  0 <= n -> Z.sqrt n + 1 <= P ->
  let X := n * (P * P) in
  let m := Z.sqrt X in
  (if X - m * m <=? m then m else m + 1) / P = Z.sqrt n.
Proof.
  intros Hn HP X m.
  pose proof (Z.sqrt_spec n Hn) as [Hlo Hhi].
  pose proof (Z.sqrt_nonneg n) as Hp0.
  set (p := Z.sqrt n) in *.
  assert (HX : 0 <= X) by (unfold X; nia).
  pose proof (Z.sqrt_spec X HX) as [Hmlo Hmhi].
  pose proof (Z.sqrt_nonneg X) as Hm0.
  fold m in Hmlo, Hmhi, Hm0.
  unfold Z.succ in *.
  assert (Hlow : p * P <= m) by (unfold X in *; nia).
  set (Q := (p + 1) * P).
  assert (HXQ : X <= Q * Q - Q) by (unfold X, Q; nia).
  assert (HQ : 1 <= Q) by (unfold Q; nia).
  assert (HmQ : m <= Q - 1).
  { destruct (Z_lt_le_dec m Q) as [|Hge]; [lia|].
    assert (Q * Q <= m * m) by (apply Z.mul_le_mono_nonneg; lia). lia. }
  assert (HR : p * P <= (if X - m * m <=? m then m else m + 1) <= Q - 1).
  { destruct (X - m * m <=? m) eqn:E; [lia|].
    apply Z.leb_gt in E. split; [lia|].
    destruct (Z.eq_dec m (Q - 1)) as [Hm|]; [|lia]. nia. }
  symmetry. apply Z.div_unique with ((if X - m * m <=? m then m else m + 1) - p * P).
  - left. unfold Q in HR. lia.
  - lia.
Qed.

(** Below [2^52] the truncated double square root is the integer square
    root. *)
Lemma float_sqrt_exact (n : Z) :
  0 <= n < 2 ^ 52 -> float_sqrt_floor (round_to_53 n) = Z.sqrt n.
Proof.
  intros [Hn Hlt]. rewrite round_to_53_small.
  2:{ eapply Z.lt_trans; [exact Hlt|]. apply Z.pow_lt_mono_r; lia. }
  unfold float_sqrt_floor. destruct (n =? 0) eqn:E0.
  { apply Z.eqb_eq in E0. subst. reflexivity. }
  apply Z.eqb_neq in E0.
  assert (HL : 0 <= Z.log2 n < 52).
  { split; [apply Z.log2_nonneg|]. apply Z.log2_lt_pow2; lia. }
  assert (Ht : 1 <= Z.log2 n / 2 + 1 <= 26).
  { pose proof (Z.div_pos (Z.log2 n) 2 ltac:(lia) ltac:(lia)).
    assert (Z.log2 n / 2 < 26) by (apply Z.div_lt_upper_bound; lia). lia. }
  set (t := Z.log2 n / 2 + 1) in *.
  destruct (t <=? 53) eqn:Et; [|apply Z.leb_gt in Et; lia].
  cbv zeta. rewrite pow4 by lia.
  apply nearest_root_floor; [lia|].
  assert (Hp : Z.sqrt n < 2 ^ 26).
  { apply Z.sqrt_lt_square; [lia | lia|].
    change (2 ^ 26 * 2 ^ 26) with (2 ^ 52). lia. }
  assert (HP : 2 ^ 27 <= 2 ^ (53 - t)) by (apply Z.pow_le_mono_r; lia).
  change (2 ^ 26) with 67108864 in Hp. change (2 ^ 27) with 134217728 in HP. lia.
Qed.

(** The truncated double square root of a positive double is at least 1. *)
Lemma float_sqrt_floor_pos (x : Z) : 1 <= x -> 1 <= float_sqrt_floor x.
Proof.
  intros Hx. pose proof (Z.log2_spec x ltac:(lia)) as [Hlo _].
  pose proof (Z.log2_nonneg x) as HL.
  unfold float_sqrt_floor. destruct (x =? 0) eqn:E0; [apply Z.eqb_eq in E0; lia|].
  pose proof (Z.div_pos (Z.log2 x) 2 ltac:(lia) ltac:(lia)) as Hd.
  pose proof (Z.mul_div_le (Z.log2 x) 2 ltac:(lia)) as Hd2.
  set (t := Z.log2 x / 2 + 1) in *.
  destruct (t <=? 53) eqn:Et; cbv zeta.
  - apply Z.leb_le in Et. rewrite pow4 by lia.
    set (P := 2 ^ (53 - t)).
    assert (HP : 0 < P) by (apply Z.pow_pos_nonneg; lia).
    set (X := x * (P * P)).
    assert (Hm : P <= Z.sqrt X).
    { rewrite <- (Z.sqrt_square P) at 1 by lia. apply Z.sqrt_le_mono. unfold X. nia. }
    apply Z.div_le_lower_bound; [lia|].
    destruct (_ <=? _); lia.
  - apply Z.leb_gt in Et.
    set (k := t - 53).
    assert (Hk : 4 ^ k <= x).
    { rewrite pow4, <- Z.pow_add_r by lia.
      eapply Z.le_trans; [|exact Hlo]. apply Z.pow_le_mono_r; lia. }
    assert (H4 : 0 < 4 ^ k) by (apply Z.pow_pos_nonneg; lia).
    assert (Hq : 1 <= x / 4 ^ k) by (apply Z.div_le_lower_bound; lia).
    assert (Hm : 1 <= Z.sqrt (x / 4 ^ k)).
    { change 1 with (Z.sqrt 1) at 1. by apply Z.sqrt_le_mono. }
    assert (H2 : 1 <= 2 ^ k).
    { assert (0 < 2 ^ k) by (apply Z.pow_pos_nonneg; lia). lia. }
    destruct (_ <? _); [nia|]. destruct (_ <? _); [nia|]. destruct (Z.even _); nia.
Qed.

Lemma int_sqrt_exact (n : Z) : 0 <= n < 2 ^ 52 -> int_sqrt n = Ok (Z.sqrt n).
Proof.
  intros [Hn Hlt]. unfold int_sqrt, float_of_int. cbv zeta.
  rewrite Z.abs_eq by done. rewrite round_to_53_small.
  2:{ eapply Z.lt_trans; [exact Hlt|]. apply Z.pow_lt_mono_r; lia. }
  assert (H : n < 2 ^ 1024).
  { eapply Z.lt_trans; [exact Hlt|]. apply Z.pow_lt_mono_r; lia. }
  destruct (2 ^ 1024 <=? n) eqn:E; [apply Z.leb_le in E; lia|].
  cbn [result_bind]. destruct (n <? 0) eqn:E0; [apply Z.ltb_lt in E0; lia|].
  rewrite <- (float_sqrt_exact n) by done.
  by rewrite round_to_53_small
    by (eapply Z.lt_trans; [exact Hlt|]; apply Z.pow_lt_mono_r; lia).
Qed.

Lemma int_sqrt_ok (n : Z) :
  1 <= n < 2 ^ 1023 -> exists r, int_sqrt n = Ok r /\ 1 <= r.
Proof.
  intros Hn. unfold int_sqrt. rewrite Z.abs_eq by lia.
  destruct (float_of_int_ok n Hn) as (x & -> & Hx). cbn [result_bind].
  destruct (n <? 0) eqn:E0; [apply Z.ltb_lt in E0; lia|].
  eexists. split; [done|]. by apply float_sqrt_floor_pos.
Qed.

Lemma int_sqrt_overflow (n : Z) : 2 ^ 1024 <= n -> int_sqrt n = Raise FloatOverflow.
Proof.
  intros Hn. assert (H0 : 0 < 2 ^ 1024) by (apply Z.pow_pos_nonneg; lia).
  unfold int_sqrt. rewrite Z.abs_eq by lia.
  by rewrite float_of_int_overflow.
Qed.

Lemma int_sqrt_negative (n : Z) : n < 0 -> exists e, int_sqrt n = Raise e.
Proof.
  intros Hn. unfold int_sqrt.
  destruct (float_of_int (Z.abs n)) as [x|e]; cbn [result_bind]; [|eauto].
  destruct (n <? 0) eqn:E0; [eauto | apply Z.ltb_ge in E0; lia].
Qed.

(** ** [find_factors] *)

Section Factors.

(** The upper limit [r] of the candidates is kept general: the limit that
    the double square root gives can be above or below the integer square
    root. *)
Variables r n : Z.
Hypothesis n_pos : 1 <= n.

Lemma elem_of_factor_pairs (p : list Z) :
  p ∈ factor_pairs r n <->
  exists i, 1 <= i <= r /\ n `mod` i = 0 /\ p = [i; n `div` i].
Proof.
  unfold factor_pairs. rewrite list_elem_of_fmap. split.
  - intros (i & -> & Hi). apply list_elem_of_filter in Hi as [Hm Hr].
    apply elem_of_range in Hr. exists i. split; [lia|]. done.
  - intros (i & Hr & Hm & ->). exists i. split; [done|].
    apply list_elem_of_filter. split; [done|]. apply elem_of_range. lia.
Qed.

Lemma elem_of_concat_factor_pairs (d : Z) :
  d ∈ concat (factor_pairs r n) <->
  exists i, 1 <= i <= r /\ n `mod` i = 0 /\ (d = i \/ d = n `div` i).
Proof.
  rewrite elem_of_concat. split.
  - intros (p & Hd & Hp). apply elem_of_factor_pairs in Hp as (i & Hr & Hm & ->).
    exists i. split; [done|]. split; [done|].
    apply elem_of_cons in Hd as [Hd | Hd]; [by left|].
    apply list_elem_of_singleton in Hd. by right.
  - intros (i & Hr & Hm & Hd). exists [i; n `div` i]. split.
    + destruct Hd as [-> | ->]; [apply list_elem_of_here|].
      apply list_elem_of_further, list_elem_of_here.
    + apply elem_of_factor_pairs. by exists i.
Qed.

Lemma factor_pairs_nonempty : 1 <= r -> factor_pairs r n <> [].
Proof.
  intros Hr Hnil.
  assert (H : [1; n `div` 1] ∈ factor_pairs r n).
  { apply elem_of_factor_pairs. exists 1.
    split; [lia|]. split; [apply Z.mod_1_r | done]. }
  rewrite Hnil in H. inversion H.
Qed.

(** Every collected number is a positive divisor, whatever the limit. *)
Lemma factor_pairs_sound (d : Z) :
  d ∈ concat (factor_pairs r n) -> 1 <= d /\ n `mod` d = 0.
Proof.
  intros Hd. apply elem_of_concat_factor_pairs in Hd as (i & Hr & Hm & Hd).
  assert (Hq : n = i * (n `div` i)).
  { rewrite (Z.div_mod n i) at 1 by lia. lia. }
  destruct Hd as [-> | ->]; [split; [lia | done]|].
  pose proof n_pos as Hn. revert Hq Hn. generalize (n `div` i). intros q Hq Hn.
  split; [nia|]. rewrite Hq. apply Z.mod_mul. nia.
Qed.

(** Every positive divisor is collected once the limit reaches the
    square root: a divisor above the root is the cofactor of one below. *)
Lemma factor_pairs_complete (d : Z) :
  Z.sqrt n <= r -> 1 <= d -> n `mod` d = 0 -> d ∈ concat (factor_pairs r n).
Proof.
  intros Hr Hd Hm. apply elem_of_concat_factor_pairs.
  pose proof n_pos as Hn.
  pose proof (Z.sqrt_spec n ltac:(lia)) as [Hlo Hhi].
  assert (Hq : n = d * (n `div` d)).
  { rewrite (Z.div_mod n d) at 1 by lia. lia. }
  destruct (Z_le_gt_dec d (Z.sqrt n)) as [Hle | Hgt].
  - exists d. split; [lia|]. split; [done | by left].
  - assert (Hq1 : 1 <= n `div` d) by nia.
    assert (Hq2 : n `div` d <= Z.sqrt n) by nia.
    exists (n `div` d). split; [lia|]. split.
    + rewrite Hq at 1. apply Z.mod_mul. lia.
    + right. rewrite Hq at 1. rewrite Z.div_mul; lia.
Qed.

(** The cofactor of a collected number is collected too, whatever the
    limit. *)
Lemma factor_pairs_cofactor (d : Z) :
  d ∈ concat (factor_pairs r n) -> (n `div` d) ∈ concat (factor_pairs r n).
Proof.
  intros Hd. apply elem_of_concat_factor_pairs in Hd as (i & Hr & Hm & Hd).
  apply elem_of_concat_factor_pairs. exists i. split; [done|]. split; [done|].
  destruct Hd as [-> | ->]; [by right|]. left.
  assert (Hq : n = (n `div` i) * i).
  { rewrite (Z.div_mod n i) at 1 by lia. lia. }
  pose proof n_pos as Hn.
  assert (Hq1 : 1 <= n `div` i) by nia.
  rewrite Hq at 1. rewrite Z.mul_comm. rewrite Z.div_mul; lia.
Qed.

Lemma factor_pairs_empty : r < 1 -> factor_pairs r n = [].
Proof.
  intros Hr. unfold factor_pairs, range.
  replace (r + 1 - 1) with r by lia.
  unfold seqZ. replace (Z.to_nat r) with 0%nat by lia. done.
Qed.

End Factors.

Lemma int_sqrt_0 : int_sqrt 0 = Ok 0.
Proof. reflexivity. Qed.

(** What a returned list is made of. *)
Lemma find_factors_inv (n : Z) (l : list Z) :
  find_factors n = Ok l ->
  1 <= n /\
  exists r, int_sqrt n = Ok r /\ 1 <= r /\
            l = elements (list_to_set (C := gset Z) (concat (factor_pairs r n))).
Proof.
  unfold find_factors. intros Hl.
  destruct (int_sqrt n) as [r|e] eqn:Hr; [|done]. cbn [result_bind] in Hl.
  destruct (Z_lt_le_dec r 1) as [Hlt | Hge].
  { rewrite factor_pairs_empty in Hl by done. done. }
  rewrite reduce_app_concat in Hl by (by apply factor_pairs_nonempty).
  cbn [result_bind] in Hl. injection Hl as <-.
  split; [|by exists r].
  destruct (Z_lt_le_dec n 0) as [Hneg | Hnn].
  - destruct (int_sqrt_negative n Hneg) as [e He]. congruence.
  - destruct (Z.eq_dec n 0) as [-> | Hnz]; [|lia].
    rewrite int_sqrt_0 in Hr. injection Hr as <-. lia.
Qed.

Lemma find_factors_of_limit (n r : Z) :
  int_sqrt n = Ok r -> 1 <= r ->
  find_factors n
  = Ok (elements (list_to_set (C := gset Z) (concat (factor_pairs r n)))).
Proof.
  intros Hr Hge. unfold find_factors. rewrite Hr. cbn [result_bind].
  by rewrite reduce_app_concat by (by apply factor_pairs_nonempty).
Qed.

(** A returned list has no duplicates, holds 1 and [n], and holds only
    positive divisors of [n], each with its cofactor. *)
Lemma find_factors_ok_members (n : Z) (l : list Z) :
  find_factors n = Ok l ->
  1 <= n /\ NoDup l /\ 1 ∈ l /\ n ∈ l /\
  (forall d, d ∈ l -> 1 <= d /\ n `mod` d = 0 /\ (n `div` d) ∈ l).
Proof.
  intros Hl. apply find_factors_inv in Hl as (Hn & r & Hr & Hge & ->).
  split; [done|]. split; [apply NoDup_elements|].
  assert (H1 : 1 ∈ concat (factor_pairs r n)).
  { apply elem_of_concat_factor_pairs. exists 1.
    split; [lia|]. split; [apply Z.mod_1_r | by left]. }
  split; [by apply elem_of_elements, elem_of_list_to_set|].
  split.
  - apply elem_of_elements, elem_of_list_to_set.
    replace n with (n `div` 1) at 1 by apply Z.div_1_r.
    by apply factor_pairs_cofactor.
  - intros d Hd. apply elem_of_elements, elem_of_list_to_set in Hd.
    destruct (factor_pairs_sound r n Hn d Hd) as [Hd1 Hdm].
    split; [done|]. split; [done|].
    apply elem_of_elements, elem_of_list_to_set. by apply factor_pairs_cofactor.
Qed.

Lemma find_factors_exact (n : Z) :
  1 <= n < 2 ^ 52 ->
  find_factors n
  = Ok (elements (list_to_set (C := gset Z) (concat (factor_pairs (Z.sqrt n) n)))).
Proof.
  intros Hn. apply find_factors_of_limit; [apply int_sqrt_exact; lia|].
  assert (Z.sqrt 1 <= Z.sqrt n) by (apply Z.sqrt_le_mono; lia).
  change (Z.sqrt 1) with 1 in *. lia.
Qed.

(** The result of [find_factors] on a positive number below [2^52]: a
    duplicate-free list whose members are exactly the positive divisors. *)
Lemma find_factors_members (n : Z) :
  1 <= n < 2 ^ 52 ->
  exists l, find_factors n = Ok l /\ NoDup l /\
            forall d, d ∈ l <-> 1 <= d /\ n `mod` d = 0.
Proof.
  intros Hn. eexists. split; [by apply find_factors_exact|].
  split; [apply NoDup_elements|].
  intros d. rewrite elem_of_elements, elem_of_list_to_set. split.
  - apply factor_pairs_sound. lia.
  - intros [Hd Hm]. apply factor_pairs_complete; (lia || done).
Qed.

(** [find_factors] returns as long as the conversion to [float] does. *)
Lemma find_factors_returns (n : Z) :
  1 <= n < 2 ^ 1023 -> exists l, find_factors n = Ok l.
Proof.
  intros Hn. destruct (int_sqrt_ok n Hn) as (r & Hr & Hge).
  eexists. by apply find_factors_of_limit.
Qed.

Lemma find_factors_overflow (n : Z) :
  2 ^ 1024 <= n -> find_factors n = Raise FloatOverflow.
Proof.
  intros Hn. unfold find_factors. by rewrite int_sqrt_overflow.
Qed.

Lemma find_factors_nonpositive (n : Z) :
  n <= 0 -> exists e, find_factors n = Raise e.
Proof.
  intros Hn. destruct (find_factors n) as [l|e] eqn:E; [|eauto].
  apply find_factors_inv in E as [H _]. lia.
Qed.

Lemma find_factors_6 :
  exists l, find_factors 6 = Ok l /\ l ≡ₚ [1; 2; 3; 6].
Proof. eexists. split; [vm_compute; reflexivity | solve_Permutation]. Qed.

(** ** [num_to_latex] *)

Lemma chars_padding {A : Type} (l : list A) :
  chars (join "" (map (fun _ => "x"%string) l)) = replicate (length l) "x"%string.
Proof.
  induction l as [|a l IH]; [done|].
  destruct l as [|b l]; [done|].
  change (join "" (map (fun _ => "x"%string) (a :: b :: l)))
    with ("x" +:+ "" +:+ join "" (map (fun _ : A => "x"%string) (b :: l))).
  rewrite !chars_app, IH. done.
Qed.

Lemma map_mark_padding (k : nat) (l : list string) :
  Forall (fun s => String.eqb s "x" = false) l ->
  map (fun digit => if String.eqb digit "x" then phantom else digit)
      (replicate k "x"%string ++ l)
  = replicate k phantom ++ l.
Proof.
  intros Hl. rewrite map_app. f_equal.
  - induction k as [|k IH]; simpl; [done|]. by rewrite IH.
  - induction Hl as [|s l Hs Hl IH]; simpl; [done|]. by rewrite Hs, IH.
Qed.

Lemma num_to_latex_eq (num_digits num : Z) :
  num_to_latex num_digits num =
  match str num with
  | Ok _ =>
      Ok (join "\," (replicate (Z.to_nat (num_digits - len (numeral num))) phantom
                     ++ chars (numeral num)))
  | Raise e => Raise e
  end.
Proof.
  unfold num_to_latex. destruct (str num) as [s|e] eqn:Hs; [|done].
  apply str_inv in Hs as [-> _]. cbn [result_bind]. f_equal.
  rewrite chars_app, chars_padding, length_range.
  rewrite Z.sub_0_r. fold phantom. by rewrite map_mark_padding by apply str_no_x.
Qed.

Lemma num_to_latex_ok (num_digits num : Z) :
  0 <= num -> num < 10 ^ int_max_str_digits ->
  num_to_latex num_digits num
  = Ok (join "\," (replicate (Z.to_nat (num_digits - len (numeral num))) phantom
                   ++ chars (numeral num))).
Proof. intros H0 Hlt. by rewrite num_to_latex_eq, str_ok. Qed.

Lemma num_to_latex_raise (num_digits num : Z) :
  10 ^ int_max_str_digits <= num -> num_to_latex num_digits num = Raise DigitLimit.
Proof. intros H. by rewrite num_to_latex_eq, str_raise. Qed.

Lemma num_to_latex_inv (num_digits num : Z) (s : string) :
  num_to_latex num_digits num = Ok s ->
  s = join "\," (replicate (Z.to_nat (num_digits - len (numeral num))) phantom
                 ++ chars (numeral num)).
Proof.
  rewrite num_to_latex_eq. destruct (str num); [|done].
  intros H. by injection H as <-.
Qed.

(** ** [operation_to_latex] *)

Lemma operation_to_latex_cases (x : string) :
  (in_set x aliases = true /\ In (operation_to_latex x) canonical)
  \/ (in_set x aliases = false /\ operation_to_latex x = x).
Proof.
  unfold operation_to_latex, aliases, canonical, in_set. simpl.
  repeat (match goal with
          | |- context [String.eqb x ?s] => destruct (String.eqb x s) eqn:?
          end; simpl);
    first [ left; split; [reflexivity | simpl; tauto]
          | right; split; reflexivity ].
Qed.

Lemma operation_to_latex_canonical (x : string) :
  In x canonical -> operation_to_latex x = x.
Proof.
  intros Hx. simpl in Hx.
  destruct Hx as [<- | [<- | [<- | [<- | []]]]]; reflexivity.
Qed.

Lemma operation_to_latex_twice (x : string) :
  operation_to_latex (operation_to_latex x) = operation_to_latex x.
Proof.
  destruct (operation_to_latex_cases x) as [[_ H] | [_ H]].
  - by apply operation_to_latex_canonical.
  - by rewrite !H.
Qed.

(** ** The random source *)

Lemma advance_advanced (rs : RandomSource) : advance rs = advanced 1 rs.
Proof. done. Qed.

Lemma advanced_advanced (j k : nat) (rs : RandomSource) :
  advanced j (advanced k rs) = advanced (j + k) rs.
Proof. unfold advanced. simpl. by rewrite Nat.add_assoc. Qed.

Lemma drawn_advanced (j k : nat) (m : Z) (rs : RandomSource) :
  drawn (advanced k rs) j m = drawn rs (j + k) m.
Proof. unfold drawn, advanced. simpl. by rewrite Nat.add_assoc. Qed.

Lemma next_raw_advanced (k : nat) (rs : RandomSource) :
  next_raw (advanced k rs) = tape rs (k + pos rs)%nat.
Proof. done. Qed.

Lemma drawn_source_of (draws : list nat) (k : nat) (m : Z) :
  drawn (source_of draws) k m = Z.of_nat (nth k draws 0%nat) mod (m + 1).
Proof. unfold drawn, source_of. simpl. by rewrite Nat.add_0_r. Qed.

Lemma drawn_range (rs : RandomSource) (k : nat) (m : Z) :
  0 <= m -> 0 <= drawn rs k m <= m.
Proof.
  intros Hm. unfold drawn.
  pose proof (Z.mod_pos_bound (Z.of_nat (tape rs (k + pos rs)%nat)) (m + 1)). lia.
Qed.

Lemma randint_eq (m : Z) (rs : RandomSource) :
  0 <= m -> randint 0 m rs = Ok (drawn rs 0 m, advanced 1 rs).
Proof.
  intros Hm. unfold randint. destruct (m <? 0) eqn:E; [lia|].
  unfold drawn, next_raw. simpl. by rewrite Z.sub_0_r.
Qed.

(** Every value of the range is the outcome of [randint] on some source. *)
Lemma randint_surjective (m v : Z) :
  0 <= v <= m ->
  randint 0 m (source_of [Z.to_nat v])
  = Ok (v, advanced 1 (source_of [Z.to_nat v])).
Proof.
  intros Hv. rewrite randint_eq by lia. rewrite drawn_source_of. simpl.
  rewrite Z2Nat.id by lia. rewrite Z.mod_small by lia. done.
Qed.

Lemma randint_empty_range (a b : Z) (rs : RandomSource) :
  b < a -> randint a b rs = Raise BadRange.
Proof. intros H. unfold randint. destruct (b <? a) eqn:E; [done | lia]. Qed.

Lemma choice_elem_of {A : Type} (seq : list A) (rs : RandomSource) :
  seq <> [] ->
  exists x, x ∈ seq /\ seq !! (next_raw rs mod length seq)%nat = Some x /\
            choice seq rs = Ok (x, advanced 1 rs).
Proof.
  intros Hne. unfold choice.
  assert (Hlt : (next_raw rs mod length seq < length seq)%nat).
  { apply Nat.mod_upper_bound. destruct seq; [done | simpl; lia]. }
  apply lookup_lt_is_Some in Hlt as [x Hx]. exists x.
  split; [by eapply list_elem_of_lookup_2|]. split; [done|]. by rewrite Hx.
Qed.

(** Every element of the sequence is the outcome of [choice] on some
    source. *)
Lemma choice_surjective {A : Type} (seq : list A) (x : A) :
  x ∈ seq -> exists i, choice seq (source_of [i]) = Ok (x, advanced 1 (source_of [i])).
Proof.
  intros Hx. apply list_elem_of_lookup in Hx as [i Hi]. exists i.
  unfold choice, next_raw. simpl.
  rewrite Nat.mod_small by (by eapply lookup_lt_Some). by rewrite Hi.
Qed.

Lemma choice_nil {A : Type} (rs : RandomSource) :
  choice (@nil A) rs = Raise EmptyChoice.
Proof. done. Qed.

(** ** [create_problem_latex] *)

Lemma create_problem_latex_inv (num_digits : Z) (operation : string)
    (num1 num2 : Z) (block : string) :
  create_problem_latex num_digits operation num1 num2 = Ok block ->
  exists num1_latex num2_latex,
    num_to_latex num_digits num1 = Ok num1_latex /\
    num_to_latex num_digits num2 = Ok num2_latex /\
    block =
    "\begin{myequation}" +:+ nl +:+
    "    \begin{array}{r}" +:+ nl +:+
    "        " +:+ num1_latex +:+ " \\" +:+ nl +:+
    "        " +:+ operation_to_latex operation +:+ "\phantom{0}" +:+
    num2_latex +:+ " \\" +:+ nl +:+
    "        \hline\\" +:+ nl +:+
    "        \hline" +:+ nl +:+
    "    \end{array}" +:+ nl +:+
    "\end{myequation}".
Proof.
  unfold create_problem_latex.
  destruct (num_to_latex num_digits num1) as [l1|e]; [|done].
  destruct (num_to_latex num_digits num2) as [l2|e]; [|done].
  cbn [result_bind]. intros H. injection H as <-. by exists l1, l2.
Qed.

Lemma create_problem_latex_ok (num_digits : Z) (operation : string) (num1 num2 : Z) :
  0 <= num1 < 10 ^ int_max_str_digits -> 0 <= num2 < 10 ^ int_max_str_digits ->
  exists block, create_problem_latex num_digits operation num1 num2 = Ok block.
Proof.
  intros H1 H2. unfold create_problem_latex.
  rewrite !num_to_latex_ok by lia. cbn [result_bind]. eauto.
Qed.

(** ** [create_random_problem_latex] *)

Lemma times_table_guard_false (operation : string) :
  times_table_guard operation = false.
Proof.
  unfold times_table_guard.
  destruct (String.eqb operation "-") eqn:E; [|done].
  apply String.eqb_eq in E. by subst.
Qed.

Lemma max_num_nonneg (num_digits : Z) : 0 <= num_digits -> 0 <= 10 ^ num_digits - 1.
Proof. intros H. pose proof (Z.pow_pos_nonneg 10 num_digits). lia. Qed.

(** The run of [random_problem] once the operation is picked: the branch
    taken and the tape cells read. *)
Lemma random_problem_eq (num_digits : Z) (ops : list string) (lm : bool)
    (rs : RandomSource) (picked : string) :
  0 <= num_digits ->
  ops !! (next_raw rs mod length ops)%nat = Some picked ->
  random_problem num_digits ops lm rs =
  let operation := operation_to_latex picked in
  let max_num := 10 ^ num_digits - 1 in
  let a := drawn rs 1 max_num in
  let b := drawn rs 2 max_num in
  if String.eqb operation "\div" then
    let quotient := drawn rs 3 max_num in
    match find_factors quotient with
    | Ok factors =>
        match factors !! (tape rs (4 + pos rs) mod length factors)%nat with
        | Some divisor => Ok ((operation, quotient, divisor), advanced 5 rs)
        | None => Raise EmptyChoice
        end
    | Raise e => Raise e
    end
  else if String.eqb operation "-" then
    Ok ((operation, (if a <? b then b else a), (if a <? b then a else b)),
        advanced 3 rs)
  else Ok ((operation, a, b), advanced 3 rs).
Proof.
  intros Hnd Hpick. pose proof (max_num_nonneg num_digits Hnd) as Hmax.
  unfold random_problem, bind, choice. rewrite Hpick.
  unfold max_num_of. destruct (num_digits <? 0) eqn:E; [lia|].
  unfold randint_to. rewrite !randint_eq by done.
  rewrite times_table_guard_false. unfold ret, lift. cbv zeta.
  rewrite !advance_advanced, !advanced_advanced, !drawn_advanced. cbn [Nat.add].
  destruct (String.eqb (operation_to_latex picked) "\div") eqn:Ediv.
  - assert (Hsub : String.eqb (operation_to_latex picked) "-" = false).
    { apply String.eqb_eq in Ediv. by rewrite Ediv. }
    rewrite Hsub. rewrite randint_eq by done.
    rewrite !advanced_advanced, !drawn_advanced. cbn [Nat.add].
    destruct (find_factors (drawn rs 3 (10 ^ num_digits - 1))) as [factors|e]; [|done].
    rewrite next_raw_advanced.
    destruct (factors !! _); [|done].
    by rewrite advance_advanced, advanced_advanced.
  - destruct (String.eqb (operation_to_latex picked) "-"); [|done].
    destruct (drawn rs 1 _ <? drawn rs 2 _); reflexivity.
Qed.

Lemma random_problem_no_operations (num_digits : Z) (lm : bool) (rs : RandomSource) :
  random_problem num_digits [] lm rs = Raise EmptyChoice.
Proof. done. Qed.

Lemma random_problem_negative_digits (num_digits : Z) (ops : list string) (lm : bool)
    (rs : RandomSource) :
  num_digits < 0 -> ops <> [] -> random_problem num_digits ops lm rs = Raise BadRange.
Proof.
  intros Hnd Hne. destruct (choice_elem_of ops rs Hne) as (picked & _ & _ & Hc).
  unfold random_problem, bind. rewrite Hc.
  unfold max_num_of. destruct (num_digits <? 0) eqn:E; [done | lia].
Qed.

Lemma create_random_problem_latex_eq (num_digits : Z) (ops : list string) (lm : bool)
    (rs : RandomSource) :
  create_random_problem_latex num_digits ops lm rs =
  match random_problem num_digits ops lm rs with
  | Ok ((operation, num1, num2), rs') =>
      lift (create_problem_latex num_digits operation num1 num2) rs'
  | Raise e => Raise e
  end.
Proof.
  unfold create_random_problem_latex, bind.
  destruct (random_problem num_digits ops lm rs) as [[[[op n1] n2] rs']|e]; done.
Qed.

Lemma lift_ok_inv {A : Type} (r : result A) (rs rs' : RandomSource) (a : A) :
  lift r rs = Ok (a, rs') -> r = Ok a /\ rs' = rs.
Proof. unfold lift. destruct r; [|done]. intros H. by injection H as <- <-. Qed.

(** For a multiplication the operands are the two plain draws from
    [0 .. 10^num_digits - 1], whatever [limit_multiplication] is. *)
Lemma times_operands_plain (num_digits : Z) (ops : list string) (lm : bool)
    (rs : RandomSource) (picked : string) :
  0 <= num_digits ->
  ops !! (next_raw rs mod length ops)%nat = Some picked ->
  operation_to_latex picked = "\times"%string ->
  random_problem num_digits ops lm rs
  = Ok (("\times"%string, drawn rs 1 (10 ^ num_digits - 1),
         drawn rs 2 (10 ^ num_digits - 1)), advanced 3 rs).
Proof.
  intros Hnd Hpick Hop. rewrite (random_problem_eq _ _ _ _ picked) by done.
  cbv zeta. by rewrite Hop.
Qed.

Lemma divisor_cofactor (n d : Z) :
  1 <= n -> 1 <= d -> n `mod` d = 0 ->
  d <= n /\ 1 <= n `div` d /\ d * (n `div` d) = n /\ n `mod` (n `div` d) = 0.
Proof.
  intros Hn Hd Hm.
  assert (Hq : n = d * (n `div` d)).
  { rewrite (Z.div_mod n d) at 1 by lia. lia. }
  assert (Hq1 : 1 <= n `div` d) by nia.
  split; [nia|]. split; [done|]. split; [lia|].
  rewrite Hq at 1. apply Z.mod_mul. lia.
Qed.

Lemma random_problem_inv (num_digits : Z) (ops : list string) (lm : bool)
    (rs rs' : RandomSource) (r : string * Z * Z) :
  random_problem num_digits ops lm rs = Ok (r, rs') ->
  exists picked,
    picked ∈ ops /\ ops !! (next_raw rs mod length ops)%nat = Some picked /\
    0 <= num_digits.
Proof.
  intros Hrun. destruct ops as [|o ops].
  - rewrite random_problem_no_operations in Hrun. discriminate.
  - destruct (choice_elem_of (o :: ops) rs ltac:(done)) as (picked & Hin & Hlook & _).
    exists picked. split; [done|]. split; [done|].
    destruct (Z_lt_le_dec num_digits 0) as [Hneg | Hnn]; [|done].
    rewrite random_problem_negative_digits in Hrun by done. discriminate.
Qed.

(** The operation of a generated problem and the number of draws read. *)
Lemma random_problem_shape (num_digits : Z) (ops : list string) (lm : bool)
    (rs rs' : RandomSource) (operation : string) (num1 num2 : Z) :
  random_problem num_digits ops lm rs = Ok ((operation, num1, num2), rs') ->
  (exists picked, picked ∈ ops /\ operation = operation_to_latex picked) /\
  (rs' = advanced 3 rs /\ operation <> "\div"%string \/
   rs' = advanced 5 rs /\ operation = "\div"%string).
Proof.
  intros Hrun.
  destruct (random_problem_inv _ _ _ _ _ _ Hrun) as (picked & Hin & Hlook & Hnd).
  rewrite (random_problem_eq _ _ _ _ picked) in Hrun by done. cbv zeta in Hrun.
  destruct (String.eqb (operation_to_latex picked) "\div") eqn:Ediv.
  - apply String.eqb_eq in Ediv.
    destruct (find_factors _) as [factors|e]; [|done].
    destruct (factors !! _) as [divisor|]; [|done].
    injection Hrun as <- _ _ <-. split; [by exists picked | by right].
  - apply String.eqb_neq in Ediv.
    destruct (String.eqb (operation_to_latex picked) "-");
      injection Hrun as <- _ _ <-; (split; [by exists picked | by left]).
Qed.

Lemma random_problem_range (num_digits : Z) (ops : list string) (lm : bool)
    (rs rs' : RandomSource) (operation : string) (num1 num2 : Z) :
  random_problem num_digits ops lm rs = Ok ((operation, num1, num2), rs') ->
  0 <= num1 <= 10 ^ num_digits - 1 /\ 0 <= num2 <= 10 ^ num_digits - 1.
Proof.
  intros Hrun.
  destruct (random_problem_inv _ _ _ _ _ _ Hrun) as (picked & Hin & Hlook & Hnd).
  pose proof (max_num_nonneg num_digits Hnd) as Hmax.
  pose proof (drawn_range rs 1 _ Hmax) as Ha.
  pose proof (drawn_range rs 2 _ Hmax) as Hb.
  pose proof (drawn_range rs 3 _ Hmax) as Hq.
  rewrite (random_problem_eq _ _ _ _ picked) in Hrun by done.
  cbv zeta in Hrun.
  destruct (String.eqb (operation_to_latex picked) "\div") eqn:Ediv.
  - destruct (find_factors _) as [factors|e] eqn:Hff; [|done].
    destruct (factors !! _) as [divisor|] eqn:Hd; [|done].
    injection Hrun as _ <- <- _.
    apply list_elem_of_lookup_2 in Hd.
    apply find_factors_ok_members in Hff as (Hq1 & _ & _ & _ & Hmem).
    apply Hmem in Hd as (Hd1 & Hdm & _).
    destruct (divisor_cofactor _ _ Hq1 Hd1 Hdm) as (Hle & _). lia.
  - destruct (String.eqb (operation_to_latex picked) "-").
    + injection Hrun as _ <- <- _. destruct (_ <? _); lia.
    + injection Hrun as _ <- <- _. lia.
Qed.

Lemma random_problem_total (num_digits : Z) (ops : list string) (lm : bool)
    (rs : RandomSource) :
  0 <= num_digits -> ops <> [] ->
  Forall (fun o => operation_to_latex o <> "\div"%string) ops ->
  exists r rs', random_problem num_digits ops lm rs = Ok (r, rs').
Proof.
  intros Hnd Hne Hops.
  destruct (choice_elem_of ops rs Hne) as (picked & Hin & Hlook & _).
  rewrite (random_problem_eq _ _ _ _ picked) by done. cbv zeta.
  rewrite Forall_forall in Hops. specialize (Hops picked Hin).
  apply String.eqb_neq in Hops. rewrite Hops.
  destruct (String.eqb _ "-"); eauto.
Qed.

Lemma operand_printable (num_digits x : Z) :
  0 <= num_digits <= int_max_str_digits -> 0 <= x <= 10 ^ num_digits - 1 ->
  0 <= x < 10 ^ int_max_str_digits.
Proof.
  intros Hnd Hx. split; [lia|].
  assert (10 ^ num_digits <= 10 ^ int_max_str_digits) by (apply Z.pow_le_mono_r; lia).
  lia.
Qed.

Lemma create_random_problem_latex_total (num_digits : Z) (ops : list string)
    (lm : bool) (rs : RandomSource) :
  0 <= num_digits <= int_max_str_digits -> ops <> [] ->
  Forall (fun o => operation_to_latex o <> "\div"%string) ops ->
  exists p rs', create_random_problem_latex num_digits ops lm rs = Ok (p, rs').
Proof.
  intros Hnd Hne Hops. rewrite create_random_problem_latex_eq.
  destruct (random_problem_total num_digits ops lm rs ltac:(lia) Hne Hops)
    as ([[op n1] n2] & rs' & Hrun).
  rewrite Hrun. destruct (random_problem_range _ _ _ _ _ _ _ _ Hrun) as [H1 H2].
  destruct (create_problem_latex_ok num_digits op n1 n2) as [block ->];
    [by eapply operand_printable | by eapply operand_printable|].
  unfold lift. eauto.
Qed.

(** ** [create_worksheet_latex] *)

Lemma concat_sep_join (sep : string) (bs : list string) :
  bs <> [] ->
  concat_strings (map (fun b => b +:+ sep) bs) = join sep bs +:+ sep.
Proof.
  induction bs as [|b bs IH]; [done|]. intros _.
  destruct bs as [|b' bs].
  - simpl. by rewrite string_app_nil_r.
  - change (concat_strings (map (fun b => b +:+ sep) (b :: b' :: bs)))
      with ((b +:+ sep) +:+ concat_strings (map (fun b => b +:+ sep) (b' :: bs))).
    rewrite IH by done.
    change (join sep (b :: b' :: bs)) with (b +:+ sep +:+ join sep (b' :: bs)).
    by rewrite !string_app_assoc.
Qed.

(** Stripping two characters after a row of cells removes exactly the
    separator that follows the last cell. *)
Lemma drop_last_row (ws : string) (row : list string) :
  row <> [] ->
  drop_last 2 (ws +:+ concat_strings (map (fun b => b +:+ "&" +:+ nl) row))
  = ws +:+ join ("&" +:+ nl) row.
Proof.
  intros Hrow. rewrite (concat_sep_join ("&" +:+ nl)) by done.
  rewrite <- string_app_assoc.
  apply (drop_last_app (ws +:+ join ("&" +:+ nl) row) ("&" +:+ nl)).
Qed.

Lemma for_range_S {St : Type} (n : nat) (body : St -> Gen St) (s : St)
    (rs : RandomSource) :
  for_range (S n) body s rs =
  match body s rs with
  | Ok (s', rs') => for_range n body s' rs'
  | Raise e => Raise e
  end.
Proof. reflexivity. Qed.

Section GenList.

Context {A : Type} (g : Gen A).

Lemma gen_list_S (n : nat) (rs : RandomSource) :
  gen_list (S n) g rs =
  match g rs with
  | Ok (x, rs1) =>
      match gen_list n g rs1 with
      | Ok (xs, rs2) => Ok (x :: xs, rs2)
      | Raise e => Raise e
      end
  | Raise e => Raise e
  end.
Proof.
  simpl. unfold bind. destruct (g rs) as [[x rs1]|e]; [|done].
  by destruct (gen_list n g rs1) as [[xs rs2]|e].
Qed.

Lemma gen_list_length (n : nat) (rs rs' : RandomSource) (xs : list A) :
  gen_list n g rs = Ok (xs, rs') -> length xs = n.
Proof.
  revert rs xs. induction n as [|n IH]; intros rs xs.
  - simpl. unfold ret. intros H. injection H as <- _. done.
  - rewrite gen_list_S. destruct (g rs) as [[x rs1]|e]; [|done].
    destruct (gen_list n g rs1) as [[xs' rs2]|e] eqn:E; [|done].
    intros H. injection H as <- <-. simpl. f_equal. by eapply IH.
Qed.

Lemma gen_list_Forall (P : A -> Prop) :
  (forall rs x rs', g rs = Ok (x, rs') -> P x) ->
  forall n rs xs rs', gen_list n g rs = Ok (xs, rs') -> Forall P xs.
Proof.
  intros Hg. induction n as [|n IH]; intros rs xs rs'.
  - simpl. unfold ret. intros H. injection H as <- _. constructor.
  - rewrite gen_list_S. destruct (g rs) as [[x rs1]|e] eqn:Ex; [|done].
    destruct (gen_list n g rs1) as [[xs' rs2]|e] eqn:E; [|done].
    intros H. injection H as <- <-. constructor; eauto.
Qed.

Lemma gen_list_total :
  (forall rs, exists x rs', g rs = Ok (x, rs')) ->
  forall n rs, exists xs rs', gen_list n g rs = Ok (xs, rs').
Proof.
  intros Hg. induction n as [|n IH]; intros rs.
  - by exists [], rs.
  - rewrite gen_list_S. destruct (Hg rs) as (x & rs1 & ->).
    destruct (IH rs1) as (xs & rs2 & ->). by exists (x :: xs), rs2.
Qed.

Lemma gen_list_add (a b : nat) (rs : RandomSource) :
  gen_list (a + b) g rs =
  match gen_list a g rs with
  | Ok (xs, rs1) =>
      match gen_list b g rs1 with
      | Ok (ys, rs2) => Ok (xs ++ ys, rs2)
      | Raise e => Raise e
      end
  | Raise e => Raise e
  end.
Proof.
  revert rs. induction a as [|a IHa]; intros rs.
  - simpl. unfold ret. by destruct (gen_list b g rs) as [[ys rs2]|e].
  - change (S a + b)%nat with (S (a + b)). rewrite !gen_list_S.
    destruct (g rs) as [[x rs1]|e]; [|done].
    rewrite IHa. destruct (gen_list a g rs1) as [[xs rs2]|e]; [|done].
    by destruct (gen_list b g rs2) as [[ys rs3]|e].
Qed.

End GenList.

(** [n] rows of [m] runs are [n * m] runs in a row. *)
Lemma gen_list_rows {A : Type} (g : Gen A) (m n : nat) (rs rs' : RandomSource)
    (rows : list (list A)) :
  gen_list n (gen_list m g) rs = Ok (rows, rs') ->
  gen_list (n * m) g rs = Ok (concat rows, rs').
Proof.
  revert rs rows. induction n as [|n IH]; intros rs rows.
  - simpl. unfold ret. intros H. by injection H as <- <-.
  - rewrite gen_list_S. change (S n * m)%nat with (m + n * m)%nat.
    rewrite gen_list_add.
    destruct (gen_list m g rs) as [[row rs1]|e]; [|done].
    destruct (gen_list n (gen_list m g) rs1) as [[rows' rs2]|e] eqn:E; [|done].
    intros H. injection H as <- <-. by rewrite (IH _ _ E).
Qed.

Section Loops.

(** The generator of one problem block. *)
Variable g : Gen string.

(** The inner loop appends each block followed by the column separator. *)
Lemma cells_loop (n : nat) (ws : string) (count : Z) (rs : RandomSource) :
  for_range n
    (fun '(worksheet_latex, count) =>
       let count := count + 1 in
       (let* problem_latex := g in
        ret (worksheet_latex +:+ problem_latex +:+ "&" +:+ nl, count))%gen)
    (ws, count) rs
  = match gen_list n g rs with
    | Ok (bs, rs') =>
        Ok ((ws +:+ concat_strings (map (fun b => b +:+ "&" +:+ nl) bs),
             count + Z.of_nat n), rs')
    | Raise e => Raise e
    end.
Proof.
  revert ws count rs. induction n as [|n IH]; intros ws count rs.
  - simpl. unfold ret. by rewrite string_app_nil_r, Z.add_0_r.
  - rewrite for_range_S, gen_list_S. unfold bind at 1.
    destruct (g rs) as [[p rs1]|e]; [|done].
    unfold ret at 1. rewrite IH.
    destruct (gen_list n g rs1) as [[bs rs2]|e]; [|done].
    cbn [map concat_strings fold_right].
    rewrite !string_app_assoc. do 3 f_equal. lia.
Qed.

(** The outer loop appends one row per iteration. *)
Lemma rows_loop (n : nat) (ws : string) (count : Z) (rs : RandomSource) :
  for_range n
    (fun '(worksheet_latex, count) =>
       (let* (worksheet_latex, count) :=
          for_range 4
            (fun '(worksheet_latex, count) =>
               let count := count + 1 in
               (let* problem_latex := g in
                ret (worksheet_latex +:+ problem_latex +:+ "&" +:+ nl, count)))
            (worksheet_latex, count) in
        let worksheet_latex := drop_last 2 worksheet_latex in
        ret (worksheet_latex +:+ "\\ " +:+ nl, count))%gen)
    (ws, count) rs
  = match gen_list n (gen_list 4 g) rs with
    | Ok (rows, rs') =>
        Ok ((ws +:+ worksheet_of_rows rows, count + 4 * Z.of_nat n), rs')
    | Raise e => Raise e
    end.
Proof.
  revert ws count rs. induction n as [|n IH]; intros ws count rs.
  - simpl. unfold ret, worksheet_of_rows. simpl.
    by rewrite string_app_nil_r, Z.add_0_r.
  - rewrite for_range_S. unfold bind at 1. rewrite cells_loop.
    rewrite (gen_list_S (gen_list 4 g) n).
    destruct (gen_list 4 g rs) as [[row rs1]|e] eqn:Erow; [|done].
    assert (Hrow : row <> []).
    { apply gen_list_length in Erow. by destruct row. }
    unfold ret at 1. rewrite drop_last_row by done. rewrite IH.
    destruct (gen_list n (gen_list 4 g) rs1) as [[rows rs2]|e]; [|done].
    unfold worksheet_of_rows. cbn [map concat_strings fold_right].
    unfold row_latex. rewrite !string_app_assoc. do 3 f_equal. lia.
Qed.

End Loops.

Lemma create_worksheet_latex_eq (num_digits : Z) (ops : list string) (lm : bool)
    (rs : RandomSource) :
  create_worksheet_latex num_digits ops lm rs =
  match gen_list 5 (gen_list 4 (create_random_problem_latex num_digits ops lm)) rs with
  | Ok (rows, rs') => Ok (worksheet_of_rows rows, rs')
  | Raise e => Raise e
  end.
Proof.
  unfold create_worksheet_latex. cbv zeta. unfold bind at 1. rewrite rows_loop.
  destruct (gen_list 5 _ rs) as [[rows rs']|e]; done.
Qed.

(** * The properties of the design document *)

(** ** Factorizer *)

Lemma find_factors_0 : find_factors 0 = Raise EmptyReduce.
Proof. vm_compute. reflexivity. Qed.

(** C6, as the code has it.  Whenever [find_factors n] returns a list,
    [n >= 1], the list contains 1 and [n], every element [d] of it
    satisfies [n mod d = 0] and [d >= 1], and it has no duplicates.
    [find_factors n] returns for every [1 <= n < 2^1023].  For every
    [1 <= n < 2^52], where the double square root truncates to the integer
    square root, the list has all this and every positive divisor of [n]
    appears in it. *)
Theorem find_factors_divisors (n : Z) :
  (forall l, find_factors n = Ok l ->
     1 <= n /\ 1 ∈ l /\ n ∈ l /\
     (forall d, d ∈ l -> n `mod` d = 0 /\ 1 <= d) /\
     NoDup l) /\
  (1 <= n < 2 ^ 1023 -> exists l, find_factors n = Ok l) /\
  (1 <= n < 2 ^ 52 ->
   exists l, find_factors n = Ok l /\
     1 ∈ l /\ n ∈ l /\
     (forall d, d ∈ l -> n `mod` d = 0 /\ 1 <= d) /\
     NoDup l /\
     (forall d, 1 <= d -> n `mod` d = 0 -> d ∈ l)).
Proof.
  split; [|split].
  - intros l Hl. apply find_factors_ok_members in Hl as (Hn & Hnd & H1 & Hself & Hmem).
    split; [done|]. split; [done|]. split; [done|]. split; [|done].
    intros d Hd. apply Hmem in Hd. tauto.
  - apply find_factors_returns.
  - intros Hn. destruct (find_factors_members n Hn) as (l & Hl & Hnd & Hmem).
    exists l. split; [done|].
    split; [apply Hmem; split; [lia | apply Z.mod_1_r]|].
    split; [apply Hmem; split; [lia | apply Z.mod_same; lia]|].
    split; [intros d Hd; apply Hmem in Hd; tauto|].
    split; [done|]. intros d Hd Hm. by apply Hmem.
Qed.

Lemma find_factors_divisors_witness :
  exists l, find_factors 6 = Ok l /\
    1 ∈ l /\ 6 ∈ l /\
    (forall d, d ∈ l -> 6 `mod` d = 0 /\ 1 <= d) /\
    NoDup l /\
    (forall d, 1 <= d -> 6 `mod` d = 0 -> d ∈ l).
Proof. apply (proj2 (proj2 (find_factors_divisors 6))). lia. Defined.

(** C6, as stated, at [n = 10^400]: the conversion of [n] to a double
    overflows, [find_factors] raises and returns no list. *)
Lemma find_factors_large_raises :
  1 <= 10 ^ 400 /\
  find_factors (10 ^ 400) = Raise FloatOverflow /\
  ~ (forall n, 1 <= n -> exists l, find_factors n = Ok l).
Proof.
  assert (H1 : 1 <= 10 ^ 400) by lia.
  assert (Hr : find_factors (10 ^ 400) = Raise FloatOverflow).
  { apply find_factors_overflow. lia. }
  split; [done|]. split; [done|].
  intros H. destruct (H (10 ^ 400) H1) as [l Hl]. congruence.
Qed.

(** Above [2^52] a returned list can miss a divisor: at [n = (2^53 + 1)^2]
    the double next to [n] is [2^106 + 2^54], its square root rounds to
    [2^53], and the divisor [2^53 + 1], which has no cofactor below it, is
    not reached. *)
Lemma find_factors_misses_divisor :
  (exists l, find_factors ((2 ^ 53 + 1) ^ 2) = Ok l) /\
  1 <= 2 ^ 53 + 1 /\ (2 ^ 53 + 1) ^ 2 `mod` (2 ^ 53 + 1) = 0 /\
  forall l, find_factors ((2 ^ 53 + 1) ^ 2) = Ok l -> ~ (2 ^ 53 + 1) ∈ l.
Proof.
  assert (Hr : int_sqrt ((2 ^ 53 + 1) ^ 2) = Ok (2 ^ 53)) by (vm_compute; reflexivity).
  split; [|split; [lia|split; [vm_compute; reflexivity|]]].
  - eexists. apply (find_factors_of_limit _ _ Hr). lia.
  - intros l Hl. apply find_factors_inv in Hl as (_ & r & Hr' & _ & ->).
    rewrite Hr in Hr'. injection Hr' as <-.
    rewrite elem_of_elements, elem_of_list_to_set. intros Hd.
    apply elem_of_concat_factor_pairs in Hd as (i & Hi & Hm & Hd).
    assert (Hq : (2 ^ 53 + 1) ^ 2 = i * ((2 ^ 53 + 1) ^ 2 `div` i)).
    { rewrite (Z.div_mod ((2 ^ 53 + 1) ^ 2) i) at 1 by lia. lia. }
    destruct Hd as [Hd | Hd]; [lia|].
    rewrite <- Hd in Hq. nia.
Qed.

(** C9. [find_factors 0] does not return a list: it raises.  So the
    generation of a division problem raises whenever the drawn quotient is
    0, an outcome that lies inside the quotient range
    [0 .. 10^num_digits - 1] and is reached on a concrete source. *)
Theorem divide_zero_quotient_raises :
  find_factors 0 = Raise EmptyReduce /\
  (forall num_digits ops lm rs picked,
     0 <= num_digits ->
     ops !! (next_raw rs mod length ops)%nat = Some picked ->
     operation_to_latex picked = "\div"%string ->
     drawn rs 3 (10 ^ num_digits - 1) = 0 ->
     random_problem num_digits ops lm rs = Raise EmptyReduce /\
     create_random_problem_latex num_digits ops lm rs = Raise EmptyReduce) /\
  (forall num_digits lm,
     0 <= num_digits ->
     0 <= 0 <= 10 ^ num_digits - 1 /\
     drawn (source_of []) 3 (10 ^ num_digits - 1) = 0 /\
     create_random_problem_latex num_digits ["div"%string] lm (source_of [])
     = Raise EmptyReduce).
Proof.
  assert (Hgen : forall num_digits ops lm rs picked,
     0 <= num_digits ->
     ops !! (next_raw rs mod length ops)%nat = Some picked ->
     operation_to_latex picked = "\div"%string ->
     drawn rs 3 (10 ^ num_digits - 1) = 0 ->
     random_problem num_digits ops lm rs = Raise EmptyReduce /\
     create_random_problem_latex num_digits ops lm rs = Raise EmptyReduce).
  { intros nd ops lm rs picked Hnd Hpick Hop Hq.
    assert (Hrp : random_problem nd ops lm rs = Raise EmptyReduce).
    { rewrite (random_problem_eq _ _ _ _ picked) by done.
      cbv zeta. rewrite Hop, Hq, find_factors_0. done. }
    split; [done|]. by rewrite create_random_problem_latex_eq, Hrp. }
  split; [exact find_factors_0|]. split; [exact Hgen|].
  intros nd lm Hnd. pose proof (max_num_nonneg nd Hnd).
  assert (Hz : drawn (source_of []) 3 (10 ^ nd - 1) = 0).
  { rewrite drawn_source_of. simpl. apply Z.mod_0_l. lia. }
  split; [lia|]. split; [done|].
  apply (Hgen nd ["div"%string] lm (source_of []) "div"%string); done.
Qed.

Lemma divide_zero_quotient_raises_witness :
  random_problem 2 ["+"; "divide"]%string true (source_of [1; 8; 9; 300; 4]%nat)
  = Raise EmptyReduce /\
  create_random_problem_latex 2 ["+"; "divide"]%string true
    (source_of [1; 8; 9; 300; 4]%nat)
  = Raise EmptyReduce.
Proof.
  apply (proj1 (proj2 divide_zero_quotient_raises) 2 ["+"; "divide"]%string true
           (source_of [1; 8; 9; 300; 4]%nat) "divide"%string).
  - lia.
  - reflexivity.
  - reflexivity.
  - reflexivity.
Defined.

(** ** Operand Formatter *)

Lemma str_of_len (x : Z) :
  0 <= x -> len (numeral x) <= int_max_str_digits -> str x = Ok (numeral x).
Proof.
  intros Hx Hlen. unfold str. rewrite Z.abs_eq by done.
  destruct (int_max_str_digits <? len (numeral x)) eqn:E; [|done].
  apply Z.ltb_lt in E. lia.
Qed.

(** The numeral of [10^d] is a 1 followed by [d] zeros. *)
Lemma len_pow10 (d : Z) : 0 <= d -> len (numeral (10 ^ d)) = d + 1.
Proof.
  intros Hd.
  assert (H1 : 1 <= 10 ^ d) by (pose proof (Z.pow_pos_nonneg 10 d); lia).
  pose proof (str_length_bounds _ H1) as [Hlo Hhi].
  pose proof (len_str_ge_1 (10 ^ d) ltac:(lia)) as Hl.
  apply Z.pow_le_mono_r_iff in Hlo; [|lia|lia].
  apply Z.pow_lt_mono_r_iff in Hhi; lia.
Qed.

(** C7, as the code has it.  For every digit width [w >= 1] and every
    non-negative [x] whose decimal representation has length at most [w]
    and at most 4300, the limit of [str], [num_to_latex] returns exactly
    [w] digit positions joined by the spacing marker ["\,"]: the leftmost
    [w - len(numeral x)] positions are the blank-padding marker (not the
    digit 0) and the others are the digits of [x] in order. *)
Theorem num_to_latex_padded (w x : Z) :
  1 <= w -> 0 <= x -> len (numeral x) <= w ->
  len (numeral x) <= int_max_str_digits ->
  let positions :=
    replicate (Z.to_nat (w - len (numeral x))) phantom ++ chars (numeral x) in
  num_to_latex w x = Ok (join "\," positions) /\
  Z.of_nat (length positions) = w /\
  Forall digit_string (chars (numeral x)).
Proof.
  intros Hw Hx Hlen Hlim positions. split; [|split].
  - by rewrite num_to_latex_eq, str_of_len.
  - unfold positions. rewrite length_app, length_replicate, length_chars.
    unfold len in *. lia.
  - by apply str_digits.
Qed.

Lemma num_to_latex_padded_witness :
  num_to_latex 3 42 = Ok "\phantom{0}\,4\,2"%string /\
  Z.of_nat (length (replicate (Z.to_nat (3 - len (numeral 42))) phantom
                    ++ chars (numeral 42))) = 3 /\
  Forall digit_string (chars (numeral 42)).
Proof.
  apply (num_to_latex_padded 3 42).
  - lia.
  - lia.
  - vm_compute. discriminate.
  - vm_compute. discriminate.
Defined.

(** C7, as stated, at [w = 5000] and [x = 10^4300]: the numeral of [x] has
    4301 digits, which fits the width, but [str] refuses to build it and
    [num_to_latex] raises. *)
Lemma num_to_latex_padded_raises :
  1 <= 5000 /\ 0 <= 10 ^ 4300 /\ len (numeral (10 ^ 4300)) <= 5000 /\
  num_to_latex 5000 (10 ^ 4300) = Raise DigitLimit.
Proof.
  split; [lia|]. split; [apply Z.pow_nonneg; lia|]. split.
  - rewrite len_pow10; lia.
  - apply num_to_latex_raise, Z.le_refl.
Qed.

(** C10, as the code has it.  For every digit width [w] and every
    non-negative [x] whose decimal representation is longer than [w] and
    has at most 4300 digits, the limit of [str], [num_to_latex] adds no
    padding and raises nothing: it returns the digits of [x] joined by the
    spacing marker. *)
Theorem num_to_latex_overflow (w x : Z) :
  0 <= x -> w < len (numeral x) -> len (numeral x) <= int_max_str_digits ->
  num_to_latex w x = Ok (join "\," (chars (numeral x))) /\
  Forall digit_string (chars (numeral x)).
Proof.
  intros Hx Hlen Hlim. split; [|by apply str_digits].
  rewrite num_to_latex_eq, str_of_len by done.
  replace (Z.to_nat (w - len (numeral x))) with 0%nat by lia. done.
Qed.

Lemma num_to_latex_overflow_witness :
  num_to_latex 1 420 = Ok "4\,2\,0"%string /\
  Forall digit_string (chars (numeral 420)).
Proof.
  apply (num_to_latex_overflow 1 420).
  - lia.
  - vm_compute. reflexivity.
  - vm_compute. discriminate.
Defined.

(** C10, as stated, at [w = 1] and [x = 10^4300]: the numeral of [x] is
    longer than the width, and [num_to_latex] raises. *)
Lemma num_to_latex_overflow_raises :
  0 <= 10 ^ 4300 /\ 1 < len (numeral (10 ^ 4300)) /\
  num_to_latex 1 (10 ^ 4300) = Raise DigitLimit.
Proof.
  split; [apply Z.pow_nonneg; lia|]. split.
  - rewrite len_pow10; lia.
  - apply num_to_latex_raise, Z.le_refl.
Qed.

(** ** Operation Resolver *)

(** C8. [operation_to_latex] is idempotent; a token that matches no alias
    of the table is returned unchanged, and so is each canonical symbol
    ["+"], ["-"], ["\times"], ["\div"]. *)
Theorem operation_to_latex_idempotent :
  (forall x, operation_to_latex (operation_to_latex x) = operation_to_latex x) /\
  (forall x, in_set x aliases = false -> operation_to_latex x = x) /\
  (forall x, In x canonical -> operation_to_latex x = x).
Proof.
  split; [|split; [|exact operation_to_latex_canonical]].
  - intros x. destruct (operation_to_latex_cases x) as [[_ H] | [_ H]].
    + by apply operation_to_latex_canonical.
    + by rewrite !H.
  - intros x Hx.
    destruct (operation_to_latex_cases x) as [[H _] | [_ H]]; [congruence | done].
Qed.

Lemma operation_to_latex_idempotent_witness :
  operation_to_latex "modulo" = "modulo"%string /\
  operation_to_latex "\times" = "\times"%string.
Proof.
  split.
  - apply (proj1 (proj2 operation_to_latex_idempotent) "modulo"%string).
    reflexivity.
  - apply (proj2 (proj2 operation_to_latex_idempotent) "\times"%string).
    simpl. tauto.
Defined.

(** ** Problem Generator *)

(** C1. The run of [random_problem] with [limit_multiplication = True] on
    the operation ["x"] with draws 50 and 7 at [num_digits = 2]: the
    operands are the plain draws, and 50 is above the times-table bound. *)
Theorem multiply_operands_not_limited :
  random_problem 2 ["x"%string] true (source_of [0; 50; 7]%nat)
  = Ok (("\times"%string, 50, 7), advanced 3 (source_of [0; 50; 7]%nat)) /\
  ~ (50 <= 12).
Proof. split; [vm_compute; reflexivity | lia]. Qed.

(** C2. [limit_multiplication] has no effect: the guard
    [operation == '-' and operation == '\\times'] is false for every
    operation, and [create_random_problem_latex] and
    [create_worksheet_latex] return the same result on the same draws
    whatever the flag is. *)
Theorem limit_multiplication_ignored :
  (forall operation, times_table_guard operation = false) /\
  (forall num_digits ops lm1 lm2 rs,
     create_random_problem_latex num_digits ops lm1 rs
     = create_random_problem_latex num_digits ops lm2 rs) /\
  (forall num_digits ops lm1 lm2 rs,
     create_worksheet_latex num_digits ops lm1 rs
     = create_worksheet_latex num_digits ops lm2 rs).
Proof.
  split; [apply times_table_guard_false|]. split; reflexivity.
Qed.

Lemma pow2_1023_printable : 2 ^ 1023 <= 10 ^ int_max_str_digits.
Proof.
  transitivity (10 ^ 1023).
  - apply Z.pow_le_mono_l. lia.
  - apply Z.pow_le_mono_r; unfold int_max_str_digits; lia.
Qed.

(** What a run that picks a division returns. *)
Lemma division_run (num_digits : Z) (ops : list string) (lm : bool)
    (rs rs' : RandomSource) (picked operation : string) (num1 num2 : Z) :
  ops !! (next_raw rs mod length ops)%nat = Some picked ->
  operation_to_latex picked = "\div"%string ->
  random_problem num_digits ops lm rs = Ok ((operation, num1, num2), rs') ->
  operation = "\div"%string /\ num1 = drawn rs 3 (10 ^ num_digits - 1) /\
  rs' = advanced 5 rs /\
  exists factors, find_factors num1 = Ok factors /\ num2 ∈ factors.
Proof.
  intros Hpick Hop Hrun.
  destruct (random_problem_inv _ _ _ _ _ _ Hrun) as (picked' & _ & _ & Hnd).
  rewrite (random_problem_eq _ _ _ _ picked) in Hrun by done.
  cbv zeta in Hrun. rewrite Hop in Hrun. cbn [String.eqb Ascii.eqb Bool.eqb] in Hrun.
  destruct (find_factors _) as [factors|e] eqn:Hff; [|done].
  destruct (factors !! _) as [divisor|] eqn:Hd; [|done].
  injection Hrun as <- <- <- <-.
  split; [done|]. split; [done|]. split; [done|].
  exists factors. split; [done|]. by eapply list_elem_of_lookup_2.
Qed.

(** A run that picks a division returns when the quotient is positive and
    can be converted to a double. *)
Lemma division_run_returns (num_digits : Z) (ops : list string) (lm : bool)
    (rs : RandomSource) (picked : string) :
  0 <= num_digits ->
  ops !! (next_raw rs mod length ops)%nat = Some picked ->
  operation_to_latex picked = "\div"%string ->
  1 <= drawn rs 3 (10 ^ num_digits - 1) < 2 ^ 1023 ->
  exists num2 block,
    random_problem num_digits ops lm rs
    = Ok (("\div"%string, drawn rs 3 (10 ^ num_digits - 1), num2), advanced 5 rs) /\
    create_problem_latex num_digits "\div" (drawn rs 3 (10 ^ num_digits - 1)) num2
    = Ok block /\
    create_random_problem_latex num_digits ops lm rs = Ok (block, advanced 5 rs).
Proof.
  intros Hnd Hpick Hop Hq. set (quotient := drawn rs 3 (10 ^ num_digits - 1)) in *.
  destruct (find_factors_returns quotient Hq) as [factors Hff].
  pose proof (find_factors_ok_members _ _ Hff) as (_ & _ & H1 & _ & Hmem).
  assert (Hlt : (tape rs (4 + pos rs) mod length factors < length factors)%nat).
  { apply Nat.mod_upper_bound. destruct factors; [inversion H1 | simpl; lia]. }
  apply lookup_lt_is_Some in Hlt as [divisor Hd].
  assert (Hin : divisor ∈ factors) by (by eapply list_elem_of_lookup_2).
  apply Hmem in Hin as (Hd1 & Hdm & _).
  destruct (divisor_cofactor quotient divisor ltac:(lia) Hd1 Hdm) as (Hle & _).
  assert (Hrp : random_problem num_digits ops lm rs
                = Ok (("\div"%string, quotient, divisor), advanced 5 rs)).
  { rewrite (random_problem_eq _ _ _ _ picked) by done.
    cbv zeta. rewrite Hop. fold quotient. rewrite Hff, Hd. done. }
  pose proof pow2_1023_printable as Hp.
  destruct (create_problem_latex_ok num_digits "\div" quotient divisor) as [block Hb];
    [lia | lia |].
  exists divisor, block. split; [done|]. split; [done|].
  by rewrite create_random_problem_latex_eq, Hrp, Hb.
Qed.

(** C3. For every [num_digits >= 1], when the picked operation is a
    division and the drawn quotient is at least 1, every problem that is
    generated has the quotient as its first operand and a member of the
    factor list of the quotient as its second operand, which is not 0 and
    divides the first operand evenly; so has every block that
    [create_random_problem_latex] returns.  The problem and its block are
    generated whenever the quotient is below [2^1023], where
    [find_factors] returns. *)
Theorem divide_operands_exact (num_digits : Z) (ops : list string) (lm : bool)
    (rs : RandomSource) (picked : string) :
  1 <= num_digits ->
  ops !! (next_raw rs mod length ops)%nat = Some picked ->
  operation_to_latex picked = "\div"%string ->
  let quotient := drawn rs 3 (10 ^ num_digits - 1) in
  1 <= quotient ->
  (forall operation num1 num2 rs',
     random_problem num_digits ops lm rs = Ok ((operation, num1, num2), rs') ->
     operation = "\div"%string /\ num1 = quotient /\ rs' = advanced 5 rs /\
     (exists factors, find_factors num1 = Ok factors /\ num2 ∈ factors) /\
     num2 <> 0 /\ num1 `mod` num2 = 0) /\
  (forall block rs',
     create_random_problem_latex num_digits ops lm rs = Ok (block, rs') ->
     exists num2,
       random_problem num_digits ops lm rs
       = Ok (("\div"%string, quotient, num2), rs') /\
       create_problem_latex num_digits "\div" quotient num2 = Ok block /\
       num2 <> 0 /\ quotient `mod` num2 = 0) /\
  (quotient < 2 ^ 1023 ->
   exists num2 block,
     random_problem num_digits ops lm rs
     = Ok (("\div"%string, quotient, num2), advanced 5 rs) /\
     create_problem_latex num_digits "\div" quotient num2 = Ok block /\
     create_random_problem_latex num_digits ops lm rs = Ok (block, advanced 5 rs)).
Proof.
  intros Hnd Hpick Hop quotient Hq.
  assert (Hsafe : forall operation num1 num2 rs',
     random_problem num_digits ops lm rs = Ok ((operation, num1, num2), rs') ->
     operation = "\div"%string /\ num1 = quotient /\ rs' = advanced 5 rs /\
     (exists factors, find_factors num1 = Ok factors /\ num2 ∈ factors) /\
     num2 <> 0 /\ num1 `mod` num2 = 0).
  { intros operation num1 num2 rs' Hrun.
    destruct (division_run _ _ _ _ _ _ _ _ _ Hpick Hop Hrun)
      as (-> & -> & -> & factors & Hff & Hin).
    split; [done|]. split; [done|]. split; [done|]. split; [by exists factors|].
    apply find_factors_ok_members in Hff as (_ & _ & _ & _ & Hmem).
    apply Hmem in Hin as (Hd1 & Hdm & _). split; [lia | done]. }
  split; [exact Hsafe|]. split.
  - intros block rs' Hrun. rewrite create_random_problem_latex_eq in Hrun.
    destruct (random_problem num_digits ops lm rs) as [[[[op n1] n2] rs1]|e] eqn:Hrp;
      [|done].
    apply lift_ok_inv in Hrun as [Hb ->].
    destruct (Hsafe _ _ _ _ eq_refl) as (-> & -> & _ & _ & Hnz & Hm).
    exists n2. done.
  - intros Hlt. apply (division_run_returns _ _ _ _ picked); (lia || done).
Qed.

Lemma divide_operands_exact_witness :
  exists num2 block,
    random_problem 1 ["div"%string] true (source_of [0; 5; 7; 6; 2]%nat)
    = Ok (("\div"%string, 6, num2), advanced 5 (source_of [0; 5; 7; 6; 2]%nat)) /\
    create_problem_latex 1 "\div" 6 num2 = Ok block /\
    create_random_problem_latex 1 ["div"%string] true (source_of [0; 5; 7; 6; 2]%nat)
    = Ok (block, advanced 5 (source_of [0; 5; 7; 6; 2]%nat)).
Proof.
  apply (divide_operands_exact 1 ["div"%string] true
           (source_of [0; 5; 7; 6; 2]%nat) "div"%string).
  - lia.
  - reflexivity.
  - reflexivity.
  - vm_compute. discriminate.
  - vm_compute. reflexivity.
Defined.

(** The run of the design document's division example: quotient draw 6,
    divisor draw 2. *)
Lemma divide_example :
  random_problem 1 ["div"%string] true (source_of [0; 5; 7; 6; 2]%nat)
  = Ok (("\div"%string, 6, 2), advanced 5 (source_of [0; 5; 7; 6; 2]%nat)).
Proof. vm_compute. reflexivity. Qed.

(** C4. For every [num_digits >= 1], when the picked operation is a
    subtraction, the problem is generated from two draws [a] and [b] of
    [0 .. 10^num_digits - 1], swapped when [a < b], so that the first
    operand is never below the second; the result of
    [create_random_problem_latex] is what [create_problem_latex] makes of
    these operands, a block whenever [num_digits] is at most 4300, the
    limit of [str]. *)
Theorem subtract_operands_ordered (num_digits : Z) (ops : list string) (lm : bool)
    (rs : RandomSource) (picked : string) :
  1 <= num_digits ->
  ops !! (next_raw rs mod length ops)%nat = Some picked ->
  operation_to_latex picked = "-"%string ->
  let max_num := 10 ^ num_digits - 1 in
  let a := drawn rs 1 max_num in
  let b := drawn rs 2 max_num in
  exists num1 num2,
    random_problem num_digits ops lm rs
    = Ok (("-"%string, num1, num2), advanced 3 rs) /\
    create_random_problem_latex num_digits ops lm rs
    = lift (create_problem_latex num_digits "-" num1 num2) (advanced 3 rs) /\
    0 <= a <= max_num /\ 0 <= b <= max_num /\
    (num1, num2) = (if a <? b then (b, a) else (a, b)) /\
    num2 <= num1 /\
    (num_digits <= int_max_str_digits ->
     exists block,
       create_problem_latex num_digits "-" num1 num2 = Ok block /\
       create_random_problem_latex num_digits ops lm rs = Ok (block, advanced 3 rs)).
Proof.
  intros Hnd Hpick Hop max_num a b.
  assert (Hrp : random_problem num_digits ops lm rs
                = Ok (("-"%string, (if a <? b then b else a),
                       (if a <? b then a else b)), advanced 3 rs)).
  { rewrite (random_problem_eq _ _ _ _ picked) by (lia || done).
    cbv zeta. rewrite Hop. done. }
  exists (if a <? b then b else a), (if a <? b then a else b).
  split; [done|]. split; [by rewrite create_random_problem_latex_eq, Hrp|].
  pose proof (max_num_nonneg num_digits ltac:(lia)) as Hmax.
  pose proof (drawn_range rs 1 _ Hmax) as Ha. fold max_num a in Ha.
  pose proof (drawn_range rs 2 _ Hmax) as Hb. fold max_num b in Hb.
  split; [done|]. split; [done|].
  split; [by destruct (a <? b)|].
  split; [destruct (a <? b) eqn:E; lia|].
  intros Hlim.
  destruct (create_problem_latex_ok num_digits "-"
              (if a <? b then b else a) (if a <? b then a else b)) as [block Hblock].
  { apply (operand_printable num_digits); [lia|]. destruct (a <? b); lia. }
  { apply (operand_printable num_digits); [lia|]. destruct (a <? b); lia. }
  exists block. split; [done|].
  by rewrite create_random_problem_latex_eq, Hrp, Hblock.
Qed.

Lemma subtract_operands_ordered_witness :
  exists num1 num2,
    random_problem 2 ["-"%string] true (source_of [0; 3; 7]%nat)
    = Ok (("-"%string, num1, num2), advanced 3 (source_of [0; 3; 7]%nat)) /\
    create_random_problem_latex 2 ["-"%string] true (source_of [0; 3; 7]%nat)
    = lift (create_problem_latex 2 "-" num1 num2)
        (advanced 3 (source_of [0; 3; 7]%nat)) /\
    0 <= 3 <= 99 /\ 0 <= 7 <= 99 /\
    (num1, num2) = (7, 3) /\
    num2 <= num1 /\
    (2 <= int_max_str_digits ->
     exists block,
       create_problem_latex 2 "-" num1 num2 = Ok block /\
       create_random_problem_latex 2 ["-"%string] true (source_of [0; 3; 7]%nat)
       = Ok (block, advanced 3 (source_of [0; 3; 7]%nat))).
Proof.
  apply (subtract_operands_ordered 2 ["-"%string] true
           (source_of [0; 3; 7]%nat) "-"%string).
  - lia.
  - reflexivity.
  - reflexivity.
Defined.

(** The runs of the design document's subtraction example: draws (3, 7)
    are swapped, draws (7, 3) are kept. *)
Lemma subtract_example :
  random_problem 2 ["-"%string] true (source_of [0; 3; 7]%nat)
  = Ok (("-"%string, 7, 3), advanced 3 (source_of [0; 3; 7]%nat)) /\
  random_problem 2 ["-"%string] true (source_of [0; 7; 3]%nat)
  = Ok (("-"%string, 7, 3), advanced 3 (source_of [0; 7; 3]%nat)).
Proof. split; vm_compute; reflexivity. Qed.

(** ** Worksheet Assembler *)

(** C5, as the code has it.  Whenever [create_worksheet_latex] returns, its
    result is made of the blocks of 20 successive runs of
    [create_random_problem_latex], arranged as 5 rows of 4: the blocks of a
    row are joined by ["&"] and a newline, the last block of a row is
    followed by the row break (two backslashes, a space and a newline) and
    by no ["&"].  It returns for every [num_digits] from 0 to 4300, the
    limit of [str], and every non-empty list of operations none of which
    resolves to ["\div"]. *)
Theorem worksheet_grid (num_digits : Z) (ops : list string) (lm : bool)
    (rs : RandomSource) :
  (forall s rs',
     create_worksheet_latex num_digits ops lm rs = Ok (s, rs') <->
     exists rows,
       gen_list 5 (gen_list 4 (create_random_problem_latex num_digits ops lm)) rs
       = Ok (rows, rs') /\
       s = worksheet_of_rows rows) /\
  (forall rows rs',
     gen_list 5 (gen_list 4 (create_random_problem_latex num_digits ops lm)) rs
     = Ok (rows, rs') ->
     length rows = 5%nat /\ Forall (fun row => length row = 4%nat) rows /\
     length (concat rows) = 20%nat /\
     gen_list 20 (create_random_problem_latex num_digits ops lm) rs
     = Ok (concat rows, rs')) /\
  (0 <= num_digits <= int_max_str_digits -> ops <> [] ->
   Forall (fun o => operation_to_latex o <> "\div"%string) ops ->
   exists s rs', create_worksheet_latex num_digits ops lm rs = Ok (s, rs')) /\
  (forall b1 b2 b3 b4,
     row_latex [b1; b2; b3; b4] =
     b1 +:+ "&" +:+ nl +:+ b2 +:+ "&" +:+ nl +:+ b3 +:+ "&" +:+ nl +:+ b4 +:+
     "\\ " +:+ nl).
Proof.
  set (g := create_random_problem_latex num_digits ops lm).
  split; [|split; [|split]].
  - intros s rs'. rewrite create_worksheet_latex_eq. fold g. split.
    + destruct (gen_list 5 (gen_list 4 g) rs) as [[rows rs1]|e]; [|done].
      intros H. injection H as <- <-. by exists rows.
    + intros (rows & -> & ->). done.
  - intros rows rs' H.
    pose proof (gen_list_rows g 4 5 rs rs' rows H) as H20.
    split; [by apply gen_list_length in H|]. split.
    + eapply gen_list_Forall; [|exact H]. intros rs0 x rs0'. apply gen_list_length.
    + split; [|done]. by apply gen_list_length in H20.
  - intros Hnd Hne Hops. rewrite create_worksheet_latex_eq. fold g.
    destruct (gen_list_total (gen_list 4 g)) with (n := 5%nat) (rs := rs)
      as (rows & rs' & ->); [|eauto].
    apply gen_list_total. intros rs0.
    by apply create_random_problem_latex_total.
  - intros b1 b2 b3 b4. unfold row_latex. cbn [join].
    by rewrite !string_app_assoc.
Qed.

Lemma worksheet_grid_witness :
  exists s rs',
    create_worksheet_latex 1 ["+"; "minus"]%string true (source_of [1; 3; 7]%nat)
    = Ok (s, rs').
Proof.
  apply (proj1 (proj2 (proj2
           (worksheet_grid 1 ["+"; "minus"]%string true (source_of [1; 3; 7]%nat))))).
  - vm_compute. split; discriminate.
  - discriminate.
  - repeat constructor; discriminate.
Defined.

(** C5, as stated, at the empty list of operations: nothing is produced,
    [random.choice] raises. *)
Lemma worksheet_empty_operations_raises :
  create_worksheet_latex 1 [] true (source_of []) = Raise EmptyChoice /\
  ~ (forall num_digits ops lm rs,
       exists s rs', create_worksheet_latex num_digits ops lm rs = Ok (s, rs')).
Proof.
  split; [reflexivity|].
  intros H. destruct (H 1 [] true (source_of [])) as (s & rs' & Hs).
  vm_compute in Hs. discriminate.
Qed.

(** A worksheet with divisions raises when a quotient draw is 0. *)
Lemma worksheet_zero_quotient_raises :
  create_worksheet_latex 1 ["div"%string] true (source_of []) = Raise EmptyReduce.
Proof. vm_compute. reflexivity. Qed.

Lemma drawn_small (draws : list nat) (k : nat) (m v : Z) :
  0 <= v <= m -> nth k draws 0%nat = Z.to_nat v -> drawn (source_of draws) k m = v.
Proof.
  intros Hv Hk. rewrite drawn_source_of, Hk, Z2Nat.id by lia.
  apply Z.mod_small. lia.
Qed.

(** With more than 4300 digits the operands can be too long for [str]:
    a run that picks an addition and draws a first operand [v] of at least
    4301 digits raises. *)
Lemma long_operand_raises (num_digits v : Z) (lm : bool) :
  10 ^ int_max_str_digits <= v <= 10 ^ num_digits - 1 ->
  create_random_problem_latex num_digits ["+"%string] lm (source_of [0%nat; Z.to_nat v])
  = Raise DigitLimit.
Proof.
  intros Hv.
  assert (H0 : 0 < 10 ^ int_max_str_digits).
  { apply Z.pow_pos_nonneg; [lia | unfold int_max_str_digits; lia]. }
  assert (Hnd : 0 <= num_digits).
  { destruct (Z_lt_le_dec num_digits 0) as [Hneg|]; [|done].
    rewrite (Z.pow_neg_r 10 num_digits) in Hv by done. lia. }
  rewrite create_random_problem_latex_eq.
  rewrite (random_problem_eq _ _ _ _ "+"%string) by done.
  cbv zeta.
  change (String.eqb (operation_to_latex "+") "\div") with false.
  change (String.eqb (operation_to_latex "+") "-") with false.
  cbv iota. unfold lift, create_problem_latex.
  rewrite (drawn_small _ 1 _ v) by (done || lia).
  by rewrite num_to_latex_raise by lia.
Qed.

(** Such a draw exists at [num_digits = 4301]: the operand [10^4300]. *)
Lemma worksheet_digit_limit_raises :
  create_random_problem_latex 4301 ["+"%string] true
    (source_of [0%nat; Z.to_nat (10 ^ 4300)])
  = Raise DigitLimit.
Proof.
  apply (long_operand_raises 4301 (10 ^ 4300) true).
  split; [apply Z.le_refl|].
  change 4301 with (Z.succ 4300). rewrite Z.pow_succ_r by lia.
  pose proof (Z.pow_pos_nonneg 10 4300 ltac:(lia) ltac:(lia)) as Hp.
  revert Hp. generalize (10 ^ 4300). lia.
Qed.

(** * Further properties of the code *)

(** ** [find_factors]: when it returns, and what *)

(** The integers whose double is finite: those below [2^1024 - 2^970], the
    midpoint between the largest double and [2^1024]. *)
Lemma round_to_53_finite (m : Z) :
  0 <= m -> (round_to_53 m < 2 ^ 1024 <-> m < 2 ^ 1024 - 2 ^ 970).
Proof.
  intros Hm. destruct (Z_lt_le_dec m (2 ^ 53)) as [Hs | Hb].
  { rewrite round_to_53_small by done. lia. }
  pose proof (Z.log2_spec m ltac:(lia)) as [Hlo Hhi]. unfold Z.succ in Hhi.
  pose proof (round_to_53_bounds m ltac:(lia)) as [Rlo Rhi].
  destruct (Z_lt_le_dec (Z.log2 m) 1023) as [Hl | Hl].
  { assert (2 ^ (Z.log2 m + 1) <= 2 ^ 1023) by (apply Z.pow_le_mono_r; lia). lia. }
  destruct (Z_lt_le_dec 1023 (Z.log2 m)) as [Hg | Hg].
  { assert (2 ^ 1024 <= 2 ^ Z.log2 m) by (apply Z.pow_le_mono_r; lia). lia. }
  assert (HL : Z.log2 m = 1023) by lia. clear Rlo Rhi Hl Hg.
  rewrite HL in Hlo, Hhi. change (1023 + 1) with 1024 in Hhi.
  unfold round_to_53. destruct (m <? 2 ^ 53) eqn:E; [apply Z.ltb_lt in E; lia|].
  cbv zeta. rewrite HL. change (1023 - 52) with 971. change (971 - 1) with 970.
  pose proof (Z.div_mod m (2 ^ 971) ltac:(lia)) as Hdm.
  pose proof (Z.mod_pos_bound m (2 ^ 971) ltac:(lia)) as Hmod.
  remember (m / 2 ^ 971) as q eqn:Eq. remember (m mod 2 ^ 971) as rem eqn:Er.
  destruct (Z.eq_dec q (2 ^ 53 - 1)) as [Hq | Hq].
  - rewrite Hq. change (Z.odd (2 ^ 53 - 1)) with true. rewrite andb_true_r.
    destruct (2 ^ 970 <? rem) eqn:E1; [apply Z.ltb_lt in E1 | apply Z.ltb_ge in E1];
      (destruct (rem =? 2 ^ 970) eqn:E2;
       [apply Z.eqb_eq in E2 | apply Z.eqb_neq in E2]);
      cbn [orb]; lia.
  - destruct (_ || _); lia.
Qed.

Lemma float_of_int_returns_iff (m : Z) :
  1 <= m ->
  ((exists x, float_of_int m = Ok x /\ 1 <= x) <-> m < 2 ^ 1024 - 2 ^ 970).
Proof.
  intros Hm. pose proof (round_to_53_finite m ltac:(lia)) as Hfin.
  pose proof (round_to_53_bounds m Hm) as [Rlo _].
  pose proof (Z.pow_pos_nonneg 2 (Z.log2 m) ltac:(lia) (Z.log2_nonneg m)) as Hp.
  unfold float_of_int. cbv zeta.
  destruct (2 ^ 1024 <=? round_to_53 m) eqn:E;
    [apply Z.leb_le in E | apply Z.leb_gt in E].
  - split; [intros (x & Hx & _); done | intros H; apply Hfin in H; lia].
  - split; [intros _; by apply Hfin | intros _; eexists; split; [done | lia]].
Qed.

(** [find_factors] returns on the positive integers whose double is
    finite, and on no other. *)
Lemma find_factors_returns_exactly (n : Z) :
  (exists l, find_factors n = Ok l) <-> 1 <= n < 2 ^ 1024 - 2 ^ 970.
Proof.
  split.
  - intros [l Hl]. apply find_factors_inv in Hl as (Hn & r & Hr & _).
    split; [done|]. apply float_of_int_returns_iff; [done|].
    unfold int_sqrt in Hr. rewrite Z.abs_eq in Hr by lia.
    pose proof (round_to_53_bounds n Hn) as [Rlo _].
    pose proof (Z.pow_pos_nonneg 2 (Z.log2 n) ltac:(lia) (Z.log2_nonneg n)) as Hp.
    unfold float_of_int in *. cbv zeta in *.
    destruct (2 ^ 1024 <=? round_to_53 n); [done|].
    eexists. split; [done | lia].
  - intros [Hn Hlt].
    apply float_of_int_returns_iff in Hlt as (x & Hx & Hx1); [|done].
    eexists. apply (find_factors_of_limit n (float_sqrt_floor x)).
    + unfold int_sqrt. rewrite Z.abs_eq by lia. rewrite Hx. cbn [result_bind].
      destruct (n <? 0) eqn:E0; [apply Z.ltb_lt in E0; lia | done].
    + by apply float_sqrt_floor_pos.
Qed.

(** X1. [find_factors n] returns a list exactly when
    [1 <= n < 2^1024 - 2^970], which are the positive integers that can be
    converted to a double: it raises for 0, for every negative number and
    for every number from [2^1024 - 2^970] on. *)
Theorem find_factors_returns_iff (n : Z) :
  ((exists l, find_factors n = Ok l) <-> 1 <= n < 2 ^ 1024 - 2 ^ 970) /\
  (n <= 0 -> exists e, find_factors n = Raise e) /\
  (2 ^ 1024 - 2 ^ 970 <= n -> exists e, find_factors n = Raise e).
Proof.
  pose proof (find_factors_returns_exactly n) as Hiff.
  split; [done|].
  split; intros Hn; (destruct (find_factors n) as [l|e] eqn:E; [|eauto]);
    (assert (H : 1 <= n < 2 ^ 1024 - 2 ^ 970) by (apply Hiff; eauto)); lia.
Qed.

Lemma find_factors_returns_iff_witness : exists l, find_factors 12 = Ok l.
Proof. apply (proj2 (proj1 (find_factors_returns_iff 12))). lia. Defined.

(** X2. Every member [d] of a list returned by [find_factors n] lies in
    [1 .. n], and its cofactor [n // d] is a member too, with
    [d * (n // d) = n]. *)
Theorem find_factors_cofactors (n : Z) (l : list Z) (d : Z) :
  find_factors n = Ok l -> d ∈ l ->
  1 <= d <= n /\ (n `div` d) ∈ l /\ d * (n `div` d) = n.
Proof.
  intros Hl Hd. apply find_factors_ok_members in Hl as (Hn & _ & _ & _ & Hmem).
  apply Hmem in Hd as (Hd1 & Hdm & Hco).
  destruct (divisor_cofactor n d Hn Hd1 Hdm) as (Hle & Hq1 & Hmul & Hqm).
  split; [lia|]. done.
Qed.

Lemma find_factors_cofactors_witness :
  match find_factors 12 with
  | Ok l => 1 <= 4 <= 12 /\ (12 `div` 4) ∈ l /\ 4 * (12 `div` 4) = 12
  | Raise _ => False
  end.
Proof.
  destruct (find_factors 12) as [l|e] eqn:E.
  - apply (find_factors_cofactors 12 l 4 E).
    vm_compute in E. injection E as <-. repeat constructor.
  - vm_compute in E. discriminate.
Defined.

(** X3. For a prime [p], every list that [find_factors p] returns holds
    the two factors 1 and [p] and nothing else; and it returns one for
    every prime below [2^1024 - 2^970]. *)
Theorem find_factors_prime (p : Z) :
  Z.prime p ->
  (forall l, find_factors p = Ok l -> l ≡ₚ [1; p]) /\
  (p < 2 ^ 1024 - 2 ^ 970 -> exists l, find_factors p = Ok l /\ l ≡ₚ [1; p]).
Proof.
  intros Hp. pose proof (Z.prime_ge_2 p Hp) as Hge.
  assert (Hsafe : forall l, find_factors p = Ok l -> l ≡ₚ [1; p]).
  { intros l Hl.
    apply find_factors_ok_members in Hl as (_ & Hnd & H1 & Hself & Hmem).
    apply NoDup_Permutation; [done | |].
    - apply NoDup_cons. split; [|apply NoDup_singleton].
      rewrite list_elem_of_singleton. lia.
    - intros d. rewrite elem_of_cons, list_elem_of_singleton. split.
      + intros Hd. apply Hmem in Hd as (Hd1 & Hm & _).
        apply Z.mod_divide in Hm; [|lia].
        apply (Z.divide_prime_r d p Hp) in Hm. lia.
      + intros [-> | ->]; done. }
  split; [exact Hsafe|]. intros Hlt.
  destruct (proj2 (find_factors_returns_exactly p) ltac:(lia)) as [l Hl].
  exists l. split; [done | by apply Hsafe].
Qed.

Lemma find_factors_prime_witness :
  exists l, find_factors 3 = Ok l /\ l ≡ₚ [1; 3].
Proof. apply (proj2 (find_factors_prime 3 Z.prime_3)). lia. Defined.

(** ** [operation_to_latex]: what resolves to each symbol *)

Ltac case_aliases x :=
  unfold operation_to_latex, in_set; simpl;
  repeat (match goal with
          | |- context [String.eqb x ?s] =>
              let E := fresh "E" in
              destruct (String.eqb x s) eqn:E;
              [apply String.eqb_eq in E; subst x | apply String.eqb_neq in E]
          end; simpl).

(** X4. The tokens that [operation_to_latex] resolves to each of the four
    symbols are the aliases of that symbol and the symbol itself, and no
    other token. *)
Theorem operation_to_latex_preimages (x : string) :
  (operation_to_latex x = "+"%string <->
   In x ["add"; "addition"; "plus"; "+"]%string) /\
  (operation_to_latex x = "-"%string <->
   In x ["sub"; "subtract"; "subtraction"; "minus"; "-"]%string) /\
  (operation_to_latex x = "\times"%string <->
   In x ["multiply"; "multiplication"; "times"; "x"; "\times"]%string) /\
  (operation_to_latex x = "\div"%string <->
   In x ["div"; "divide"; "division"; "\"; "\div"]%string).
Proof.
  repeat split; intros H.
  all: try (revert H; case_aliases x; intros H; try discriminate; subst; simpl; tauto).
  all: simpl in H; repeat (destruct H as [<- | H]; [reflexivity|]); destruct H.
Qed.

Lemma operation_to_latex_preimages_witness :
  operation_to_latex "division" = "\div"%string.
Proof.
  apply (proj2 (proj2 (proj2 (proj2 (operation_to_latex_preimages "division"%string))))).
  simpl. tauto.
Defined.

(** ** [num_to_latex]: reading the operand back *)

Lemma list_ascii_app (s t : string) :
  list_ascii_of_string (s +:+ t) = list_ascii_of_string s ++ list_ascii_of_string t.
Proof.
  induction s as [|c s IH]; [done|]. rewrite string_app_cons. simpl. by rewrite IH.
Qed.

Lemma keep_digits_app (s t : string) :
  keep_digits (s +:+ t) = keep_digits s ++ keep_digits t.
Proof. unfold keep_digits. by rewrite list_ascii_app, List.filter_app. Qed.

Lemma keep_digits_join (l : list string) :
  keep_digits (join "\," l) = concat (map keep_digits l).
Proof.
  induction l as [|p l IH]; [done|].
  destruct l as [|p' l].
  - simpl. by rewrite app_nil_r.
  - change (join "\," (p :: p' :: l)) with (p +:+ "\," +:+ join "\," (p' :: l)).
    rewrite !keep_digits_app, IH. done.
Qed.

(** The only digit of a padding marker is its 0. *)
Lemma keep_digits_padding (k : nat) :
  concat (map keep_digits (replicate k phantom)) = replicate k "0"%char.
Proof. induction k as [|k IH]; [done|]. simpl. by rewrite IH. Qed.

Lemma keep_digits_chars (s : string) :
  Forall digit_string (chars s) ->
  concat (map keep_digits (chars s)) = list_ascii_of_string s.
Proof.
  unfold chars. induction s as [|c s IH]; [done|].
  simpl. intros H. apply Forall_cons in H as [(c' & Hc & Hd) H].
  injection Hc as ->. rewrite IH by done.
  unfold keep_digits. simpl. by rewrite Hd.
Qed.

Lemma digits_value_zeros (k : nat) (l : list ascii) :
  digits_value (replicate k "0"%char ++ l) = digits_value l.
Proof.
  unfold digits_value. rewrite fold_left_app.
  replace (fold_left _ (replicate k "0"%char) 0) with 0; [done|].
  induction k as [|k IH]; [done|]. simpl. exact IH.
Qed.

Lemma digits_value_acc (d : Decimal.uint) (acc : positive) :
  fold_left (fun acc c => 10 * acc + (Z.of_nat (nat_of_ascii c) - 48))
    (list_ascii_of_string (NilEmpty.string_of_uint d)) (Z.pos acc)
  = Z.pos (Pos.of_uint_acc d acc).
Proof.
  revert acc. induction d; intros acc; [done|..];
    cbn [NilEmpty.string_of_uint list_ascii_of_string fold_left Pos.of_uint_acc];
    rewrite <- IHd; f_equal; vm_compute (Z.of_nat (nat_of_ascii _) - 48); lia.
Qed.

Lemma digits_value_uint (d : Decimal.uint) :
  digits_value (list_ascii_of_string (NilEmpty.string_of_uint d))
  = Z.of_N (Pos.of_uint d).
Proof.
  unfold digits_value. induction d; [done| |..];
    cbn [NilEmpty.string_of_uint list_ascii_of_string fold_left Pos.of_uint].
  1: exact IHd.
  all: apply (digits_value_acc d).
Qed.

Lemma digits_value_str (x : Z) :
  0 <= x -> digits_value (list_ascii_of_string (numeral x)) = x.
Proof.
  intros Hx. destruct x as [|p|p]; [done| |lia].
  unfold numeral. simpl. unfold NilZero.string_of_uint.
  pose proof (DecimalPos.Unsigned.to_uint_nonnil p) as Hnil.
  pose proof (DecimalPos.Unsigned.of_to p) as Hval.
  destruct (Pos.to_uint p) eqn:E; [done|..];
    rewrite <- E at 1; rewrite digits_value_uint, E, Hval; done.
Qed.

(** The digits of a formatted operand, read as a number, are the operand:
    the zeros of the padding markers come first and do not count. *)
Lemma num_to_latex_decode (w x : Z) (s : string) :
  0 <= x -> num_to_latex w x = Ok s -> digits_value (keep_digits s) = x.
Proof.
  intros Hx Hs. apply num_to_latex_inv in Hs as ->.
  rewrite keep_digits_join, map_app, concat_app.
  rewrite keep_digits_padding, keep_digits_chars by (by apply str_digits).
  rewrite digits_value_zeros. by apply digits_value_str.
Qed.

(** X5. [num_to_latex] never returns the same output for two different
    non-negative numbers, whatever the widths. *)
Theorem num_to_latex_injective (w w' x y : Z) (s : string) :
  0 <= x -> 0 <= y ->
  num_to_latex w x = Ok s -> num_to_latex w' y = Ok s -> x = y.
Proof.
  intros Hx Hy Hsx Hsy.
  rewrite <- (num_to_latex_decode w x s Hx Hsx).
  by rewrite <- (num_to_latex_decode w' y s Hy Hsy).
Qed.

Lemma num_to_latex_injective_witness : 42 = 42.
Proof.
  apply (num_to_latex_injective 3 3 42 42 "\phantom{0}\,4\,2").
  - lia.
  - lia.
  - reflexivity.
  - reflexivity.
Defined.

(** ** [num_to_latex]: the characters it writes *)

Lemma count_char_app (c : ascii) (s t : string) :
  count_char c (s +:+ t) = (count_char c s + count_char c t)%nat.
Proof.
  induction s as [|a s IH]; [done|]. rewrite string_app_cons. simpl.
  rewrite IH. lia.
Qed.

Lemma count_char_join_0 (c : ascii) (sep : string) (l : list string) :
  count_char c sep = 0%nat -> Forall (fun p => count_char c p = 0%nat) l ->
  count_char c (join sep l) = 0%nat.
Proof.
  intros Hsep Hl. induction Hl as [|p l Hp Hl IH]; [done|].
  destruct l as [|p' l]; [done|].
  change (join sep (p :: p' :: l)) with (p +:+ sep +:+ join sep (p' :: l)).
  rewrite !count_char_app, Hp, Hsep, IH. done.
Qed.

Lemma outside_neq (c a : ascii) :
  in_alphabet c = false -> in_alphabet a = true -> Ascii.eqb a c = false.
Proof. intros Hc Ha. apply Ascii.eqb_neq. intros ->. congruence. Qed.

Ltac outside_char c Hc :=
  cbn [count_char];
  match goal with
  | |- context [Ascii.eqb ?a c] => rewrite (outside_neq c a Hc eq_refl)
  end;
  try done.

Lemma uint_chars_count (c : ascii) (d : Decimal.uint) :
  in_alphabet c = false ->
  Forall (fun p => count_char c p = 0%nat) (chars (NilEmpty.string_of_uint d)).
Proof.
  intros Hc.
  induction d; simpl; [constructor|..];
    (constructor; [|done]); outside_char c Hc.
Qed.

Lemma str_chars_count (c : ascii) (num : Z) :
  in_alphabet c = false ->
  Forall (fun p => count_char c p = 0%nat) (chars (numeral num)).
Proof.
  intros Hc.
  assert (H : forall d, Forall (fun p => count_char c p = 0%nat)
                          (chars (NilZero.string_of_uint d))).
  { intros d. unfold NilZero.string_of_uint.
    destruct d eqn:E; try (rewrite <- E; by apply uint_chars_count).
    repeat constructor. outside_char c Hc. }
  unfold numeral. destruct num as [|p|p]; simpl.
  - repeat constructor. outside_char c Hc.
  - apply H.
  - constructor; [|apply H]. outside_char c Hc.
Qed.

Lemma count_char_outside (c : ascii) (s : string) :
  in_alphabet c = false ->
  forallb in_alphabet (list_ascii_of_string s) = true ->
  count_char c s = 0%nat.
Proof.
  intros Hc. induction s as [|a s IH]; [done|].
  cbn [count_char list_ascii_of_string forallb].
  intros H. apply andb_prop in H as [Ha H].
  by rewrite IH, (outside_neq c a Hc Ha).
Qed.

Lemma num_to_latex_outside (w x : Z) (c : ascii) (s : string) :
  in_alphabet c = false -> num_to_latex w x = Ok s -> count_char c s = 0%nat.
Proof.
  intros Hc Hs. apply num_to_latex_inv in Hs as ->. apply count_char_join_0.
  - by apply count_char_outside.
  - apply Forall_app. split; [|by apply str_chars_count].
    apply Forall_replicate. by apply count_char_outside.
Qed.

Lemma all_in_alphabet (s : string) :
  (forall c, in_alphabet c = false -> count_char c s = 0%nat) ->
  forallb in_alphabet (list_ascii_of_string s) = true.
Proof.
  induction s as [|a s IH]; [done|]. intros H.
  cbn [list_ascii_of_string forallb].
  destruct (in_alphabet a) eqn:Ea.
  - apply IH. intros c Hc. specialize (H c Hc). cbn [count_char] in H. lia.
  - specialize (H a Ea). cbn [count_char] in H.
    rewrite Ascii.eqb_refl in H. lia.
Qed.

(** X6. For every width and every integer, every character of an output
    of [num_to_latex] is a digit, a minus sign or a character of the two
    markers: the output holds no ["&"], no space and no newline. *)
Theorem num_to_latex_alphabet (w x : Z) (s : string) :
  num_to_latex w x = Ok s ->
  forallb in_alphabet (list_ascii_of_string s) = true /\
  count_char "&" s = 0%nat /\
  count_char " " s = 0%nat /\
  count_char (ascii_of_nat 10) s = 0%nat.
Proof.
  intros Hs.
  split; [apply all_in_alphabet; intros c Hc; by eapply num_to_latex_outside|].
  repeat split; by eapply num_to_latex_outside.
Qed.

Lemma num_to_latex_alphabet_witness :
  forallb in_alphabet (list_ascii_of_string "\phantom{0}\,-\,7") = true /\
  count_char "&" "\phantom{0}\,-\,7" = 0%nat /\
  count_char " " "\phantom{0}\,-\,7" = 0%nat /\
  count_char (ascii_of_nat 10) "\phantom{0}\,-\,7" = 0%nat.
Proof.
  apply (num_to_latex_alphabet 3 (-7) "\phantom{0}\,-\,7").
  reflexivity.
Defined.

(** ** [create_random_problem_latex]: every run *)

(** X7. For every [num_digits >= 1], both operands of every generated
    problem, whatever the operation, lie in [0 .. 10^num_digits - 1] and
    their decimal numerals are at most [num_digits] long: a generated
    problem never meets the unpadded overflow case of [num_to_latex].  The
    operation is the resolution of a member of [included_operations]. *)
Theorem generated_operands_fit (num_digits : Z) (ops : list string) (lm : bool)
    (rs rs' : RandomSource) (operation : string) (num1 num2 : Z) :
  1 <= num_digits ->
  random_problem num_digits ops lm rs = Ok ((operation, num1, num2), rs') ->
  (exists picked, picked ∈ ops /\ operation = operation_to_latex picked) /\
  0 <= num1 <= 10 ^ num_digits - 1 /\ 0 <= num2 <= 10 ^ num_digits - 1 /\
  len (numeral num1) <= num_digits /\ len (numeral num2) <= num_digits.
Proof.
  intros Hnd Hrun.
  destruct (random_problem_shape _ _ _ _ _ _ _ _ Hrun) as [Hop _].
  destruct (random_problem_range _ _ _ _ _ _ _ _ Hrun) as [H1 H2].
  split; [done|]. split; [done|]. split; [done|].
  split; apply len_str_le; lia.
Qed.

Lemma generated_operands_fit_witness :
  (exists picked,
     picked ∈ ["times"%string] /\ "\times"%string = operation_to_latex picked) /\
  0 <= 50 <= 10 ^ 2 - 1 /\ 0 <= 7 <= 10 ^ 2 - 1 /\
  len (numeral 50) <= 2 /\ len (numeral 7) <= 2.
Proof.
  apply (generated_operands_fit 2 ["times"%string] true (source_of [0; 50; 7]%nat)
           (advanced 3 (source_of [0; 50; 7]%nat)) "\times"%string 50 7).
  - lia.
  - vm_compute. reflexivity.
Defined.

(** [create_problem_latex] returns when [str] accepts both operands. *)
Lemma create_problem_latex_returns_iff (num_digits : Z) (operation : string)
    (num1 num2 : Z) :
  0 <= num1 -> 0 <= num2 ->
  ((exists block, create_problem_latex num_digits operation num1 num2 = Ok block) <->
   num1 < 10 ^ int_max_str_digits /\ num2 < 10 ^ int_max_str_digits).
Proof.
  intros H1 H2. split.
  - intros [block Hb].
    apply create_problem_latex_inv in Hb as (l1 & l2 & Hl1 & Hl2 & _).
    split.
    + destruct (Z_lt_le_dec num1 (10 ^ int_max_str_digits)) as [|Hge]; [done|].
      rewrite num_to_latex_raise in Hl1 by done. done.
    + destruct (Z_lt_le_dec num2 (10 ^ int_max_str_digits)) as [|Hge]; [done|].
      rewrite num_to_latex_raise in Hl2 by done. done.
  - intros [Hn1 Hn2]. by apply create_problem_latex_ok.
Qed.

(** X8. [create_random_problem_latex] returns a block exactly when an
    operation can be picked (the list is not empty), [num_digits] is not
    negative and the operands can be made and written: for a picked
    operation that resolves to ["\div"], the quotient draw [q] satisfies
    [1 <= q < 2^1024 - 2^970], the range on which [find_factors] returns;
    for another operation, both operand draws are below [10^4300], the
    range of [str].  In every other case it raises. *)
Theorem create_random_problem_latex_returns_iff (num_digits : Z) (ops : list string)
    (lm : bool) (rs : RandomSource) :
  (exists p rs', create_random_problem_latex num_digits ops lm rs = Ok (p, rs')) <->
  (exists picked,
     ops !! (next_raw rs mod length ops)%nat = Some picked /\
     0 <= num_digits /\
     if String.eqb (operation_to_latex picked) "\div"
     then 1 <= drawn rs 3 (10 ^ num_digits - 1) < 2 ^ 1024 - 2 ^ 970
     else drawn rs 1 (10 ^ num_digits - 1) < 10 ^ int_max_str_digits /\
          drawn rs 2 (10 ^ num_digits - 1) < 10 ^ int_max_str_digits).
Proof.
  rewrite create_random_problem_latex_eq. split.
  - intros (p & rs' & Hrun).
    destruct (random_problem num_digits ops lm rs) as [[[[op n1] n2] rs1]|e] eqn:Hrp;
      [|done].
    apply lift_ok_inv in Hrun as [Hb _].
    destruct (random_problem_inv _ _ _ _ _ _ Hrp) as (picked & _ & Hlook & Hnd).
    destruct (random_problem_range _ _ _ _ _ _ _ _ Hrp) as [Hr1 Hr2].
    assert (Hret : n1 < 10 ^ int_max_str_digits /\ n2 < 10 ^ int_max_str_digits).
    { apply (create_problem_latex_returns_iff num_digits op n1 n2);
        [lia | lia | by eexists]. }
    clear Hb.
    exists picked. split; [done|]. split; [done|].
    rewrite (random_problem_eq _ _ _ _ picked) in Hrp by done.
    cbv zeta in Hrp.
    destruct (String.eqb (operation_to_latex picked) "\div") eqn:Ediv.
    + destruct (find_factors _) as [factors|e] eqn:Hff; [|done].
      apply find_factors_returns_exactly. eauto.
    + destruct (String.eqb (operation_to_latex picked) "-").
      * injection Hrp as _ <- <- _. destruct (_ <? _); lia.
      * injection Hrp as _ <- <- _. lia.
  - intros (picked & Hlook & Hnd & Hcond).
    pose proof (max_num_nonneg num_digits Hnd) as Hmax.
    pose proof (drawn_range rs 1 _ Hmax) as Ha.
    pose proof (drawn_range rs 2 _ Hmax) as Hb.
    rewrite (random_problem_eq _ _ _ _ picked) by done. cbv zeta.
    destruct (String.eqb (operation_to_latex picked) "\div") eqn:Ediv.
    + set (quotient := drawn rs 3 (10 ^ num_digits - 1)) in *.
      destruct (proj2 (find_factors_returns_exactly quotient) Hcond) as [factors Hff].
      rewrite Hff.
      pose proof (find_factors_ok_members _ _ Hff) as (_ & _ & H1 & _ & Hmem).
      assert (Hlt : (tape rs (4 + pos rs) mod length factors < length factors)%nat).
      { apply Nat.mod_upper_bound. destruct factors; [inversion H1 | simpl; lia]. }
      apply lookup_lt_is_Some in Hlt as [divisor Hd]. rewrite Hd.
      assert (Hin : divisor ∈ factors) by (by eapply list_elem_of_lookup_2).
      apply Hmem in Hin as (Hd1 & Hdm & _).
      destruct (divisor_cofactor quotient divisor ltac:(lia) Hd1 Hdm) as (Hle & _).
      assert (Hp : 2 ^ 1024 <= 10 ^ int_max_str_digits).
      { transitivity (10 ^ 1024); [apply Z.pow_le_mono_l; lia|].
        apply Z.pow_le_mono_r; unfold int_max_str_digits; lia. }
      destruct (create_problem_latex_ok num_digits (operation_to_latex picked)
                  quotient divisor) as [block ->]; [lia | lia |].
      unfold lift. eauto.
    + destruct Hcond as [Hc1 Hc2].
      destruct (String.eqb (operation_to_latex picked) "-").
      * destruct (create_problem_latex_ok num_digits (operation_to_latex picked)
                    (if drawn rs 1 (10 ^ num_digits - 1) <? drawn rs 2 (10 ^ num_digits - 1)
                     then drawn rs 2 (10 ^ num_digits - 1)
                     else drawn rs 1 (10 ^ num_digits - 1))
                    (if drawn rs 1 (10 ^ num_digits - 1) <? drawn rs 2 (10 ^ num_digits - 1)
                     then drawn rs 1 (10 ^ num_digits - 1)
                     else drawn rs 2 (10 ^ num_digits - 1))) as [block ->];
          [destruct (_ <? _); lia | destruct (_ <? _); lia |].
        unfold lift. eauto.
      * destruct (create_problem_latex_ok num_digits (operation_to_latex picked)
                    (drawn rs 1 (10 ^ num_digits - 1))
                    (drawn rs 2 (10 ^ num_digits - 1))) as [block ->]; [lia | lia |].
        unfold lift. eauto.
Qed.

Lemma create_random_problem_latex_returns_iff_witness :
  exists p rs',
    create_random_problem_latex 1 ["div"%string] true (source_of [0; 5; 7; 6; 2]%nat)
    = Ok (p, rs').
Proof.
  apply (proj2 (create_random_problem_latex_returns_iff 1 ["div"%string] true
                  (source_of [0; 5; 7; 6; 2]%nat))).
  exists "div"%string. split; [reflexivity|]. split; [lia|].
  vm_compute. split; [discriminate | reflexivity].
Defined.

(** ** [create_random_problem_latex]: the problems that can come out *)

Lemma pow10_pos_digits (num_digits : Z) : 0 <= 10 ^ num_digits - 1 -> 0 <= num_digits.
Proof.
  intros H. destruct (Z_lt_le_dec num_digits 0) as [Hneg|]; [|done].
  rewrite Z.pow_neg_r in H by done. lia.
Qed.

(** The division problems of some run: the quotient is in the range of the
    draws, [find_factors] returns on it and the divisor is in the list. *)
Lemma division_problems (num_digits : Z) (ops : list string) (lm : bool)
    (picked : string) (q d : Z) :
  picked ∈ ops -> operation_to_latex picked = "\div"%string ->
  ((exists rs rs',
      random_problem num_digits ops lm rs = Ok (("\div"%string, q, d), rs')) <->
   0 <= q <= 10 ^ num_digits - 1 /\
   exists factors, find_factors q = Ok factors /\ d ∈ factors).
Proof.
  intros Hin Hop. split.
  - intros (rs & rs' & Hrun).
    destruct (random_problem_inv _ _ _ _ _ _ Hrun) as (picked' & _ & Hlook & Hnd).
    pose proof (drawn_range rs 3 _ (max_num_nonneg _ Hnd)) as Hq.
    rewrite (random_problem_eq _ _ _ _ picked') in Hrun by done.
    cbv zeta in Hrun.
    destruct (String.eqb (operation_to_latex picked') "\div") eqn:Ediv.
    + destruct (find_factors _) as [factors|e] eqn:Hff; [|done].
      destruct (factors !! _) as [divisor|] eqn:Hd; [|done].
      injection Hrun as _ <- <- _.
      apply list_elem_of_lookup_2 in Hd. split; [lia | by exists factors].
    + apply String.eqb_neq in Ediv.
      destruct (String.eqb (operation_to_latex picked') "-");
        injection Hrun as Hopq _ _ _; congruence.
  - intros (Hq & factors & Hff & Hdin).
    pose proof (pow10_pos_digits num_digits ltac:(lia)) as Hnd.
    apply list_elem_of_lookup in Hin as [i0 Hi0].
    apply list_elem_of_lookup in Hdin as [i Hi].
    exists (source_of [i0; 0; 0; Z.to_nat q; i]%nat),
           (advanced 5 (source_of [i0; 0; 0; Z.to_nat q; i]%nat)).
    rewrite (random_problem_eq _ _ _ _ picked); [|done|].
    + cbv zeta. rewrite Hop.
      rewrite (drawn_small _ 3 _ q) by (done || lia).
      rewrite Hff. simpl.
      rewrite Nat.mod_small by (by eapply lookup_lt_Some). by rewrite Hi.
    + unfold next_raw. simpl.
      rewrite Nat.mod_small by (by eapply lookup_lt_Some). done.
Qed.

(** X9. When some included operation resolves to ["\div"], every division
    problem [(q, d)] that a run generates has [1 <= q <= 10^num_digits - 1],
    [d >= 1] and [d] dividing [q]; the pairs that are generated are those
    with [q] in the range of the draws and [d] in the list that
    [find_factors q] returns; for [q < 2^52] they are exactly the pairs
    with [1 <= q <= 10^num_digits - 1], [d >= 1] and [d] dividing [q]. *)
Theorem division_problems_generated (num_digits : Z) (ops : list string) (lm : bool)
    (picked : string) (q d : Z) :
  picked ∈ ops -> operation_to_latex picked = "\div"%string ->
  ((exists rs rs',
      random_problem num_digits ops lm rs = Ok (("\div"%string, q, d), rs')) ->
   1 <= q <= 10 ^ num_digits - 1 /\ 1 <= d /\ q `mod` d = 0) /\
  ((exists rs rs',
      random_problem num_digits ops lm rs = Ok (("\div"%string, q, d), rs')) <->
   0 <= q <= 10 ^ num_digits - 1 /\
   exists factors, find_factors q = Ok factors /\ d ∈ factors) /\
  (q < 2 ^ 52 ->
   ((exists rs rs',
       random_problem num_digits ops lm rs = Ok (("\div"%string, q, d), rs')) <->
    1 <= q <= 10 ^ num_digits - 1 /\ 1 <= d /\ q `mod` d = 0)).
Proof.
  intros Hin Hop. pose proof (division_problems num_digits ops lm picked q d Hin Hop)
    as Hiff.
  assert (Hsafe : (exists rs rs',
      random_problem num_digits ops lm rs = Ok (("\div"%string, q, d), rs')) ->
    1 <= q <= 10 ^ num_digits - 1 /\ 1 <= d /\ q `mod` d = 0).
  { intros Hrun. apply Hiff in Hrun as (Hq & factors & Hff & Hd).
    apply find_factors_ok_members in Hff as (Hq1 & _ & _ & _ & Hmem).
    apply Hmem in Hd as (Hd1 & Hdm & _). split; [lia | done]. }
  split; [exact Hsafe|]. split; [exact Hiff|].
  intros Hlt. split; [exact Hsafe|].
  intros (Hq & Hd & Hm). apply Hiff. split; [lia|].
  destruct (find_factors_members q ltac:(lia)) as (factors & Hff & _ & Hmem).
  exists factors. split; [done|]. by apply Hmem.
Qed.

Lemma division_problems_generated_witness :
  exists rs rs',
    random_problem 2 ["+"; "divide"]%string true rs = Ok (("\div"%string, 91, 7), rs').
Proof.
  apply (proj2 (proj2 (proj2 (division_problems_generated 2 ["+"; "divide"]%string true
                  "divide"%string 91 7
                  ltac:(apply list_elem_of_further, list_elem_of_here)
                  ltac:(reflexivity))) ltac:(lia))).
  repeat split; (lia || reflexivity).
Defined.

(** X10. For an included operation that does not resolve to ["\div"], the
    problems that can be generated are exactly the pairs [(a, b)] of
    [0 .. 10^num_digits - 1], with [b <= a] when the operation resolves to
    ["-"]: each of them is the outcome of some run, and no run gives
    another pair. *)
Theorem plain_problems_generated (num_digits : Z) (ops : list string) (lm : bool)
    (picked : string) (a b : Z) :
  picked ∈ ops -> operation_to_latex picked <> "\div"%string ->
  ((exists rs rs',
      random_problem num_digits ops lm rs
      = Ok ((operation_to_latex picked, a, b), rs')) <->
   0 <= a <= 10 ^ num_digits - 1 /\ 0 <= b <= 10 ^ num_digits - 1 /\
   (operation_to_latex picked = "-"%string -> b <= a)).
Proof.
  intros Hin Hop. split.
  - intros (rs & rs' & Hrun).
    destruct (random_problem_range _ _ _ _ _ _ _ _ Hrun) as [Ha Hb].
    split; [done|]. split; [done|]. intros Hsub.
    destruct (random_problem_inv _ _ _ _ _ _ Hrun) as (picked' & _ & Hlook & Hnd).
    rewrite (random_problem_eq _ _ _ _ picked') in Hrun by done.
    cbv zeta in Hrun.
    destruct (String.eqb (operation_to_latex picked') "\div") eqn:Ediv.
    + apply String.eqb_eq in Ediv.
      destruct (find_factors _) as [factors|e]; [|done].
      destruct (factors !! _) as [divisor|]; [|done].
      injection Hrun as Hopq _ _ _. congruence.
    + destruct (String.eqb (operation_to_latex picked') "-") eqn:Esub.
      * injection Hrun as _ <- <- _. destruct (_ <? _) eqn:E; lia.
      * apply String.eqb_neq in Esub.
        injection Hrun as Hopq _ _ _. congruence.
  - intros (Ha & Hb & Hsub).
    pose proof (pow10_pos_digits num_digits ltac:(lia)) as Hnd.
    apply list_elem_of_lookup in Hin as [i0 Hi0].
    exists (source_of [i0; Z.to_nat a; Z.to_nat b]%nat),
           (advanced 3 (source_of [i0; Z.to_nat a; Z.to_nat b]%nat)).
    rewrite (random_problem_eq _ _ _ _ picked); [|done|].
    + cbv zeta. apply String.eqb_neq in Hop. rewrite Hop.
      rewrite (drawn_small _ 1 _ a), (drawn_small _ 2 _ b) by (done || lia).
      destruct (String.eqb (operation_to_latex picked) "-") eqn:Esub; [|done].
      apply String.eqb_eq in Esub. specialize (Hsub Esub).
      destruct (a <? b) eqn:E; [lia | done].
    + unfold next_raw. simpl.
      rewrite Nat.mod_small by (by eapply lookup_lt_Some). done.
Qed.

Lemma plain_problems_generated_witness :
  exists rs rs',
    random_problem 2 ["minus"; "x"]%string true rs = Ok (("-"%string, 40, 40), rs').
Proof.
  apply (proj2 (plain_problems_generated 2 ["minus"; "x"]%string true
                  "minus"%string 40 40
                  ltac:(apply list_elem_of_here) ltac:(discriminate))).
  repeat split; lia.
Defined.

(** ** [create_problem_latex] *)

Lemma string_app_inv_head (s t t' : string) : s +:+ t = s +:+ t' -> t = t'.
Proof.
  induction s as [|a s IH]; [done|]. rewrite !string_app_cons.
  intros H. injection H as H. by apply IH.
Qed.

(** Two strings that agree up to the first occurrence of [c] agree on both
    sides of it. *)
Lemma split_unique (c : ascii) (s1 s2 t1 t2 : string) :
  count_char c s1 = 0%nat -> count_char c s2 = 0%nat ->
  s1 +:+ String c t1 = s2 +:+ String c t2 -> s1 = s2 /\ t1 = t2.
Proof.
  revert s2. induction s1 as [|a s1 IH]; intros [|b s2] H1 H2 H.
  - injection H as ->. done.
  - rewrite string_app_cons in H. injection H as <- _.
    cbn [count_char] in H2. rewrite Ascii.eqb_refl in H2. done.
  - rewrite string_app_cons in H. injection H as -> _.
    cbn [count_char] in H1. rewrite Ascii.eqb_refl in H1. done.
  - rewrite !string_app_cons in H. injection H as -> H.
    cbn [count_char] in H1, H2.
    destruct (IH s2) as [-> ->]; [lia | lia | done | done].
Qed.

(** X11. For a fixed width and operation, [create_problem_latex] returns
    different blocks for different pairs of non-negative operands. *)
Theorem create_problem_latex_injective (num_digits : Z) (operation : string)
    (a b a' b' : Z) (block : string) :
  0 <= a -> 0 <= b -> 0 <= a' -> 0 <= b' ->
  create_problem_latex num_digits operation a b = Ok block ->
  create_problem_latex num_digits operation a' b' = Ok block ->
  a = a' /\ b = b'.
Proof.
  intros Ha Hb Ha' Hb' Hblock Hblock'.
  apply create_problem_latex_inv in Hblock as (l1 & l2 & Hl1 & Hl2 & ->).
  apply create_problem_latex_inv in Hblock' as (l1' & l2' & Hl1' & Hl2' & H).
  pose proof (fun w x s => num_to_latex_outside w x " "%char s eq_refl) as Hout.
  do 5 apply string_app_inv_head in H.
  change (" \\" +:+ ?r) with (String " " ("\\" +:+ r)) in H.
  apply split_unique in H as [H1 H]; [|by eapply Hout | by eapply Hout].
  do 5 apply string_app_inv_head in H.
  change (" \\" +:+ ?r) with (String " " ("\\" +:+ r)) in H.
  apply split_unique in H as [H2 _]; [|by eapply Hout | by eapply Hout].
  subst l1' l2'. split.
  - by rewrite <- (num_to_latex_decode num_digits a l1 Ha Hl1),
         <- (num_to_latex_decode num_digits a' l1 Ha' Hl1').
  - by rewrite <- (num_to_latex_decode num_digits b l2 Hb Hl2),
         <- (num_to_latex_decode num_digits b' l2 Hb' Hl2').
Qed.

Lemma create_problem_latex_injective_witness : 12 = 12 /\ 5 = 5.
Proof.
  apply (create_problem_latex_injective 2 "+"%string 12 5 12 5
           match create_problem_latex 2 "+" 12 5 with Ok block => block | Raise _ => "" end).
  - lia.
  - lia.
  - lia.
  - lia.
  - reflexivity.
  - reflexivity.
Defined.

(** X12. [create_problem_latex] gives the same result for an operation
    token and for the symbol the token resolves to: the operation that
    [create_random_problem_latex] has already resolved is resolved a second
    time without change. *)
Theorem create_problem_latex_alias (num_digits : Z) (operation : string)
    (num1 num2 : Z) :
  create_problem_latex num_digits (operation_to_latex operation) num1 num2
  = create_problem_latex num_digits operation num1 num2.
Proof.
  unfold create_problem_latex.
  destruct (num_to_latex num_digits num1) as [l1|e]; [|done].
  destruct (num_to_latex num_digits num2) as [l2|e]; [|done].
  cbn [result_bind]. cbv zeta. by rewrite operation_to_latex_twice.
Qed.

Lemma block_ampersands (num_digits : Z) (operation : string) (num1 num2 : Z)
    (block : string) :
  create_problem_latex num_digits operation num1 num2 = Ok block ->
  count_char "&" block = count_char "&" (operation_to_latex operation).
Proof.
  intros Hb. apply create_problem_latex_inv in Hb as (l1 & l2 & Hl1 & Hl2 & ->).
  rewrite !count_char_app.
  rewrite (num_to_latex_outside _ _ "&"%char l1 eq_refl Hl1).
  rewrite (num_to_latex_outside _ _ "&"%char l2 eq_refl Hl2).
  generalize (operation_to_latex operation). intros o.
  generalize (count_char "&" o). intros k. unfold nl. simpl. lia.
Qed.

(** ** [create_worksheet_latex]: separators, draws and errors *)

Lemma generated_block_ampersands (num_digits : Z) (ops : list string) (lm : bool)
    (rs rs' : RandomSource) (p : string) :
  Forall (fun o => count_char "&" (operation_to_latex o) = 0%nat) ops ->
  create_random_problem_latex num_digits ops lm rs = Ok (p, rs') ->
  count_char "&" p = 0%nat.
Proof.
  intros Hops Hrun. rewrite create_random_problem_latex_eq in Hrun.
  destruct (random_problem num_digits ops lm rs) as [[[[op n1] n2] rs1]|e] eqn:Hrp;
    [|done].
  apply lift_ok_inv in Hrun as [Hb _].
  destruct (random_problem_shape _ _ _ _ _ _ _ _ Hrp) as [(picked & Hin & ->) _].
  rewrite (block_ampersands _ _ _ _ _ Hb), operation_to_latex_twice.
  rewrite Forall_forall in Hops. by apply Hops.
Qed.

Lemma row_ampersands (b1 b2 b3 b4 : string) :
  count_char "&" (row_latex [b1; b2; b3; b4])
  = (count_char "&" b1 + count_char "&" b2 + count_char "&" b3
     + count_char "&" b4 + 3)%nat.
Proof.
  unfold row_latex. cbn [join]. rewrite !count_char_app.
  unfold nl. simpl. lia.
Qed.

Lemma worksheet_of_rows_ampersands (rows : list (list string)) :
  Forall (fun row => length row = 4%nat /\
                     Forall (fun b => count_char "&" b = 0%nat) row) rows ->
  count_char "&" (worksheet_of_rows rows) = (3 * length rows)%nat.
Proof.
  unfold worksheet_of_rows. induction 1 as [|row rows [Hlen Hrow] Hrows IH]; [done|].
  cbn [map concat_strings fold_right length].
  change (fold_right append "" (map row_latex rows))
    with (concat_strings (map row_latex rows)).
  rewrite count_char_app, IH.
  destruct row as [|b1 [|b2 [|b3 [|b4 [|b5 row]]]]]; try done.
  rewrite row_ampersands.
  apply Forall_cons in Hrow as [-> Hrow]. apply Forall_cons in Hrow as [-> Hrow].
  apply Forall_cons in Hrow as [-> Hrow]. apply Forall_cons in Hrow as [-> Hrow].
  lia.
Qed.

(** X13. When no included operation resolves to a token with an ["&"] in
    it (none of the four symbols has one), every worksheet that
    [create_worksheet_latex] returns holds exactly 15 ["&"] characters: the
    three column separators of each of the five rows, and none inside a
    block. *)
Theorem worksheet_ampersands (num_digits : Z) (ops : list string) (lm : bool)
    (rs rs' : RandomSource) (s : string) :
  Forall (fun o => count_char "&" (operation_to_latex o) = 0%nat) ops ->
  create_worksheet_latex num_digits ops lm rs = Ok (s, rs') ->
  count_char "&" s = 15%nat.
Proof.
  intros Hops Hrun. rewrite create_worksheet_latex_eq in Hrun.
  destruct (gen_list 5 _ rs) as [[rows rs1]|e] eqn:Hrows; [|done].
  injection Hrun as <- _.
  rewrite worksheet_of_rows_ampersands.
  - apply gen_list_length in Hrows. rewrite Hrows. done.
  - eapply gen_list_Forall; [|exact Hrows].
    intros rs0 row rs0' Hrow. split; [by apply gen_list_length in Hrow|].
    eapply gen_list_Forall; [|exact Hrow].
    intros rs2 p rs2'. by apply generated_block_ampersands.
Qed.

Lemma worksheet_ampersands_witness :
  match create_worksheet_latex 1 ["+"; "div"]%string true (source_of [0; 3; 7]%nat) with
  | Ok (s, _) => count_char "&" s = 15%nat
  | Raise _ => False
  end.
Proof.
  destruct (create_worksheet_latex 1 ["+"; "div"]%string true
              (source_of [0; 3; 7]%nat)) as [[s rs']|e] eqn:E.
  - apply (worksheet_ampersands 1 ["+"; "div"]%string true
             (source_of [0; 3; 7]%nat) rs' s); [|exact E].
    repeat constructor.
  - vm_compute in E. discriminate.
Defined.

Lemma advanced_0 (rs : RandomSource) : advanced 0 rs = rs.
Proof. by destruct rs. Qed.

Lemma advanced_inj (j k : nat) (rs : RandomSource) :
  advanced j rs = advanced k rs -> j = k.
Proof. unfold advanced. intros H. injection H as H. lia. Qed.

(** [n] runs that each read between [a] and [b] draws read between [n * a]
    and [n * b] draws. *)
Lemma gen_list_advanced {A : Type} (g : Gen A) (a b : nat) :
  (forall rs x rs', g rs = Ok (x, rs') ->
     exists k, rs' = advanced k rs /\ (a <= k <= b)%nat) ->
  forall n rs xs rs', gen_list n g rs = Ok (xs, rs') ->
    exists k, rs' = advanced k rs /\ (n * a <= k <= n * b)%nat.
Proof.
  intros Hg. induction n as [|n IH]; intros rs xs rs'.
  - simpl. unfold ret. intros H. injection H as _ <-.
    exists 0%nat. by rewrite advanced_0.
  - rewrite gen_list_S. destruct (g rs) as [[x rs1]|e] eqn:Ex; [|done].
    destruct (gen_list n g rs1) as [[xs' rs2]|e] eqn:E; [|done].
    intros H. injection H as _ <-.
    destruct (Hg _ _ _ Ex) as (k1 & -> & Hk1).
    destruct (IH _ _ _ E) as (k2 & -> & Hk2).
    exists (k2 + k1)%nat. rewrite advanced_advanced. split; [done | lia].
Qed.

Lemma gen_list_rows_eq {A : Type} (g : Gen A) (m n : nat) (rs : RandomSource) :
  gen_list (n * m) g rs =
  match gen_list n (gen_list m g) rs with
  | Ok (rows, rs') => Ok (concat rows, rs')
  | Raise e => Raise e
  end.
Proof.
  revert rs. induction n as [|n IH]; intros rs; [done|].
  change (S n * m)%nat with (m + n * m)%nat.
  rewrite gen_list_add, gen_list_S.
  destruct (gen_list m g rs) as [[row rs1]|e]; [|done].
  rewrite IH. by destruct (gen_list n (gen_list m g) rs1) as [[rows rs2]|e].
Qed.

Lemma problem_draws (num_digits : Z) (ops : list string) (lm : bool)
    (rs rs' : RandomSource) (p : string) :
  create_random_problem_latex num_digits ops lm rs = Ok (p, rs') ->
  exists k, rs' = advanced k rs /\ (3 <= k <= 5)%nat /\
            (Forall (fun o => operation_to_latex o <> "\div"%string) ops -> k = 3%nat).
Proof.
  intros Hrun. rewrite create_random_problem_latex_eq in Hrun.
  destruct (random_problem num_digits ops lm rs) as [[[[op n1] n2] rs1]|e] eqn:Hrp;
    [|done].
  apply lift_ok_inv in Hrun as [_ ->].
  destruct (random_problem_shape _ _ _ _ _ _ _ _ Hrp)
    as [(picked & Hin & Hop) [[-> Hnd] | [-> Hd]]].
  - exists 3%nat. split; [done|]. split; [lia | done].
  - exists 5%nat. split; [done|]. split; [lia|]. intros Hops.
    rewrite Forall_forall in Hops. specialize (Hops picked Hin). congruence.
Qed.

(** X14. A worksheet that [create_worksheet_latex] returns has read
    between 60 and 100 draws of the random source (three per problem, five
    per division problem) and left the source otherwise as it was; with no
    division among the operations it has read exactly 60. *)
Theorem worksheet_draws (num_digits : Z) (ops : list string) (lm : bool)
    (rs rs' : RandomSource) (s : string) :
  create_worksheet_latex num_digits ops lm rs = Ok (s, rs') ->
  exists k, rs' = advanced k rs /\ (60 <= k <= 100)%nat /\
            (Forall (fun o => operation_to_latex o <> "\div"%string) ops ->
             k = 60%nat).
Proof.
  intros Hrun. rewrite create_worksheet_latex_eq in Hrun.
  destruct (gen_list 5 _ rs) as [[rows rs1]|e] eqn:Hrows; [|done].
  injection Hrun as _ <-. apply gen_list_rows in Hrows.
  change (5 * 4)%nat with 20%nat in Hrows.
  destruct (gen_list_advanced (create_random_problem_latex num_digits ops lm) 3 5)
    with (n := 20%nat) (rs := rs) (xs := concat rows) (rs' := rs1)
    as (k & Hk & Hrange); [|done|].
  { intros rs0 x rs0' Hx. destruct (problem_draws _ _ _ _ _ _ Hx) as (j & ? & ? & _).
    by exists j. }
  exists k. split; [done|]. split; [lia|]. intros Hops.
  destruct (gen_list_advanced (create_random_problem_latex num_digits ops lm) 3 3)
    with (n := 20%nat) (rs := rs) (xs := concat rows) (rs' := rs1)
    as (k' & Hk' & Hrange'); [|done|].
  { intros rs0 x rs0' Hx. destruct (problem_draws _ _ _ _ _ _ Hx) as (j & ? & ? & Hj).
    exists j. split; [done|]. rewrite (Hj Hops). lia. }
  rewrite Hk in Hk'. apply advanced_inj in Hk'. lia.
Qed.

Lemma worksheet_draws_witness :
  match create_worksheet_latex 1 ["+"; "-"]%string true (source_of [1; 3; 7]%nat) with
  | Ok (_, rs') =>
      exists k, rs' = advanced k (source_of [1; 3; 7]%nat) /\ (60 <= k <= 100)%nat /\
                (Forall (fun o => operation_to_latex o <> "\div"%string)
                   ["+"; "-"]%string -> k = 60%nat)
  | Raise _ => False
  end.
Proof.
  destruct (create_worksheet_latex 1 ["+"; "-"]%string true
              (source_of [1; 3; 7]%nat)) as [[s rs']|e] eqn:E.
  - apply (worksheet_draws 1 ["+"; "-"]%string true (source_of [1; 3; 7]%nat) rs' s E).
  - vm_compute in E. discriminate.
Defined.

(** X15. [create_worksheet_latex] raises an error exactly when the 20
    successive runs of [create_random_problem_latex] on the same source
    raise it: the first problem that fails aborts the worksheet with its
    own error, and nothing else in the assembly raises. *)
Theorem worksheet_raises_iff (num_digits : Z) (ops : list string) (lm : bool)
    (rs : RandomSource) (e : error) :
  create_worksheet_latex num_digits ops lm rs = Raise e <->
  gen_list 20 (create_random_problem_latex num_digits ops lm) rs = Raise e.
Proof.
  rewrite create_worksheet_latex_eq.
  change 20%nat with (5 * 4)%nat. rewrite gen_list_rows_eq.
  destruct (gen_list 5 _ rs) as [[rows rs1]|e'];
    [split; discriminate | split; intros H; injection H as ->; reflexivity].
Qed.

Lemma worksheet_raises_iff_witness :
  create_worksheet_latex 1 ["+"; "div"]%string true (source_of [0; 1; 2; 1]%nat)
  = Raise EmptyReduce.
Proof.
  apply (proj2 (worksheet_raises_iff 1 ["+"; "div"]%string true
                  (source_of [0; 1; 2; 1]%nat) EmptyReduce)).
  vm_compute. reflexivity.
Defined.

(** ** [create_worksheet_pdf]: the template text *)

Lemma count_replace_char (c old : ascii) (new text : string) :
  count_char c (replace_char old new text)
  = ((if Ascii.eqb c old then 0 else count_char c text)
     + count_char old text * count_char c new)%nat.
Proof.
  induction text as [|a text IH]; [by destruct (Ascii.eqb c old)|].
  cbn [replace_char count_char]. rewrite count_char_app, IH.
  destruct (Ascii.eqb a old) eqn:Ea.
  - apply Ascii.eqb_eq in Ea. subst a.
    destruct (Ascii.eqb c old) eqn:Ec; [lia|].
    rewrite Ascii.eqb_sym, Ec. lia.
  - cbn [count_char]. destruct (Ascii.eqb a c) eqn:Eac.
    + apply Ascii.eqb_eq in Eac. subst a. rewrite Ea. lia.
    + destruct (Ascii.eqb c old); lia.
Qed.

(** X16. The text handed to [Template] holds no ["#"]; its ["$"] are two
    for each ["$"] of the template file plus one for each ["#"]; every
    other character occurs as often as in the file. *)
Theorem template_source_counts (text : string) :
  count_char "#" (template_source text) = 0%nat /\
  count_char "$" (template_source text)
  = (2 * count_char "$" text + count_char "#" text)%nat /\
  (forall c, c <> "$"%char -> c <> "#"%char ->
     count_char c (template_source text) = count_char c text).
Proof.
  unfold template_source. split; [|split].
  - rewrite count_replace_char. simpl. lia.
  - rewrite !count_replace_char. simpl. lia.
  - intros c Hd Hh. rewrite !count_replace_char.
    apply Ascii.eqb_neq in Hd, Hh. rewrite Hd, Hh.
    cbn [count_char]. rewrite (Ascii.eqb_sym "$" c), Hd. lia.
Qed.

Lemma template_source_counts_witness :
  count_char "a" (template_source "a$#problems a") = 2%nat.
Proof.
  rewrite (proj2 (proj2 (template_source_counts "a$#problems a")) "a"%char).
  - reflexivity.
  - discriminate.
  - discriminate.
Defined.
